(** * Improved Simple Computer (Taub): register-transfer model

    A shallow embedding of [improved_simple_computer_control_cpu_2.cpp]:
    the [Register], [GprBus], [Adder], [Memory] and [Control] components,
    the two shared bus cells and the four-phase clock of
    [Computer::Update].

    - a [WORD] (16 bits), a [DWORD] (32 bits) and a [BYTE] are values of
      [Z]; the C++ operators [&], [|], [^], [~], [<<], [>>] are
      [Z.land], [Z.lor], [Z.lxor], [Z.lnot], [Z.shiftl], [Z.shiftr];
    - the registers the components share through [std::shared_ptr] live
      once, in the [Computer] record, and every component reads and
      writes them there;
    - the arrays [Memory::mStore] and [Control::mMicrocode] are lists
      read with [!!] and written with [<[_:=_]>]; an index outside the
      array (undefined behaviour in C++) is the outcome [OutOfBounds];
    - [exit(0)] in [Control::RisingEdge] is the outcome [Exited]. *)

From Stdlib Require Import ZArith Lia Bool List.
From stdpp Require Import base list.
Import ListNotations.

Local Open Scope Z_scope.

(** ** Control lines *)

Definition GPR_M   : Z := 0x00000001.
Definition INCPC   : Z := 0x00000002.
Definition GPR_PC  : Z := 0x00000004.
Definition PC_MAR  : Z := 0x00000008.
Definition GPR_MAR : Z := 0x00000010.
Definition GPR_OP  : Z := 0x00000020.
Definition M_GPR   : Z := 0x00000040.
Definition A_GPR   : Z := 0x00000080.
Definition PC_GPR  : Z := 0x00000100.
Definition INCGPR  : Z := 0x00000200.
Definition ADD     : Z := 0x00000400.
Definition CLRA    : Z := 0x00000800.
Definition ROR     : Z := 0x00001000.
Definition ROL     : Z := 0x00002000.
Definition CLRF    : Z := 0x00004000.
Definition COMF    : Z := 0x00008000.
Definition COMA    : Z := 0x00010000.
Definition INCA    : Z := 0x00020000.
Definition INCPCF  : Z := 0x10000000.
Definition INCPCZ  : Z := 0x20000000.
Definition CLRSC   : Z := 0x40000000.
Definition HLT     : Z := 0x80000000.

(** [x | y] on control words. *)
Infix ".|" := Z.lor (at level 50, left associativity).

(** The C++ truth value of an integer: [if (x)]. *)
Definition truthy (x : Z) : bool := negb (x =? 0).

(** [if (mControlBus & mask)]. *)
Definition asserts (ctrl mask : Z) : bool := truthy (Z.land ctrl mask).

(** ** class Register *)

Record Register := mkRegister {
  mStore    : Z;
  mInMask   : Z;
  mOutMask  : Z;
  mIncrMask : Z;
  mBitMask  : Z
}.

Definition Register_new (inmask outmask incrmask bitmask store : Z) : Register :=
  mkRegister store inmask outmask incrmask bitmask.

Definition withStore (r : Register) (v : Z) : Register :=
  mkRegister v (mInMask r) (mOutMask r) (mIncrMask r) (mBitMask r).

Module Reg.

Definition Get (r : Register) : Z := mStore r.

Definition Set_ (r : Register) (data : Z) : Register :=
  withStore r (Z.land data (mBitMask r)).

Definition Reset (r : Register) : Register := withStore r 0.

Definition Increment (r : Register) : Register :=
  withStore r (Z.land (mStore r + 1) (mBitMask r)).

(** [HighLevel]: the new value of the data bus. *)
Definition HighLevel (ctrl bus : Z) (r : Register) : Z :=
  if asserts ctrl (mOutMask r) then mStore r else bus.

Definition FallingEdge (ctrl : Z) (r : Register) : Register :=
  if asserts ctrl (mIncrMask r) || (mIncrMask r =? 0xffff)
  then Increment r else r.

Definition LowLevel (ctrl bus : Z) (r : Register) : Register :=
  if asserts ctrl (mInMask r)
  then withStore r (Z.land bus (mBitMask r)) else r.

(** The stored value lies inside the register's declared width. *)
Definition in_width (r : Register) : Prop :=
  Z.land (mStore r) (mBitMask r) = mStore r.

End Reg.

(** Everything the program does to a register after it is built:
    [Computer::Reset], the three phase methods, and [Set] called by the
    transfer unit and the adder. *)
Inductive RegOp :=
| OpReset
| OpHighLevel (ctrl bus : Z)
| OpFallingEdge (ctrl : Z)
| OpLowLevel (ctrl bus : Z)
| OpSet (data : Z)
| OpIncrement.

Definition applyOp (r : Register) (o : RegOp) : Register :=
  match o with
  | OpReset => Reg.Reset r
  | OpHighLevel _ _ => r
  | OpFallingEdge ctrl => Reg.FallingEdge ctrl r
  | OpLowLevel ctrl bus => Reg.LowLevel ctrl bus r
  | OpSet data => Reg.Set_ r data
  | OpIncrement => Reg.Increment r
  end.

(** A register's history: [Reset] first (the constructor of [Computer]
    ends with [Reset()]), then any operations. *)
Definition history (r : Register) (ops : list RegOp) : Register :=
  fold_left applyOp ops (Reg.Reset r).

(** ** The machine

    The seven registers are the [Register] objects built by the
    constructor of [Computer]; their four masks never change after
    construction, so the machine state keeps only each register's
    [mStore], and [reg] rebuilds the object from the constructor's
    arguments. *)

Inductive RegName := sReg | pcReg | accReg | gprReg | flgReg | oprReg | marReg.

(** [Adder]'s private members that are written in one method and read in
    another. *)
Record AdderState := mkAdder {
  mNextFlag : Z;
  mFlagF    : Z;
  aluStore  : Z          (* Adder::mStore *)
}.

Record Computer := mkComputer {
  mBusLines  : Z;        (* the data bus *)
  mCtrlLines : Z;        (* the control bus *)
  steps : Z;             (* sReg->mStore *)
  pc    : Z;             (* pcReg->mStore *)
  acc   : Z;             (* accReg->mStore *)
  gpr   : Z;             (* gprReg->mStore *)
  flg   : Z;             (* flgReg->mStore *)
  opr   : Z;             (* oprReg->mStore *)
  mar   : Z;             (* marReg->mStore *)
  alu   : AdderState;
  ram   : list Z         (* Memory::mStore, WORD[128] *)
}.

Definition set_bus (c : Computer) (v : Z) : Computer :=
  mkComputer v (mCtrlLines c) (steps c) (pc c) (acc c) (gpr c) (flg c) (opr c) (mar c) (alu c) (ram c).
Definition set_ctrl (c : Computer) (v : Z) : Computer :=
  mkComputer (mBusLines c) v (steps c) (pc c) (acc c) (gpr c) (flg c) (opr c) (mar c) (alu c) (ram c).
Definition set_alu (c : Computer) (a : AdderState) : Computer :=
  mkComputer (mBusLines c) (mCtrlLines c) (steps c) (pc c) (acc c) (gpr c) (flg c) (opr c) (mar c) a (ram c).
Definition set_ram (c : Computer) (m : list Z) : Computer :=
  mkComputer (mBusLines c) (mCtrlLines c) (steps c) (pc c) (acc c) (gpr c) (flg c) (opr c) (mar c) (alu c) m.

Definition store (n : RegName) (c : Computer) : Z :=
  match n with
  | sReg => steps c | pcReg => pc c | accReg => acc c | gprReg => gpr c
  | flgReg => flg c | oprReg => opr c | marReg => mar c
  end.

Definition set_store (n : RegName) (v : Z) (c : Computer) : Computer :=
  match n with
  | sReg   => mkComputer (mBusLines c) (mCtrlLines c) v (pc c) (acc c) (gpr c) (flg c) (opr c) (mar c) (alu c) (ram c)
  | pcReg  => mkComputer (mBusLines c) (mCtrlLines c) (steps c) v (acc c) (gpr c) (flg c) (opr c) (mar c) (alu c) (ram c)
  | accReg => mkComputer (mBusLines c) (mCtrlLines c) (steps c) (pc c) v (gpr c) (flg c) (opr c) (mar c) (alu c) (ram c)
  | gprReg => mkComputer (mBusLines c) (mCtrlLines c) (steps c) (pc c) (acc c) v (flg c) (opr c) (mar c) (alu c) (ram c)
  | flgReg => mkComputer (mBusLines c) (mCtrlLines c) (steps c) (pc c) (acc c) (gpr c) v (opr c) (mar c) (alu c) (ram c)
  | oprReg => mkComputer (mBusLines c) (mCtrlLines c) (steps c) (pc c) (acc c) (gpr c) (flg c) v (mar c) (alu c) (ram c)
  | marReg => mkComputer (mBusLines c) (mCtrlLines c) (steps c) (pc c) (acc c) (gpr c) (flg c) (opr c) v (alu c) (ram c)
  end.

(** The arguments of the seven [std::make_shared<Register>] calls. *)
Definition reg (n : RegName) (c : Computer) : Register :=
  let v := store n c in
  match n with
  | accReg => Register_new 0 A_GPR INCA 0x0fff v
  | gprReg => Register_new (PC_GPR .| A_GPR .| M_GPR)
                           (GPR_M .| GPR_MAR .| GPR_OP .| GPR_PC) INCGPR 0x0fff v
  | pcReg  => Register_new GPR_PC (PC_MAR .| PC_GPR) INCPC 0x00ff v
  | flgReg => Register_new 0 0 0 0x0003 v
  | marReg => Register_new (PC_MAR .| GPR_MAR) 0 0 0x00ff v
  | oprReg => Register_new 0 0 0 0x000f v
  | sReg   => Register_new 0 0 0xffff 0x000f v        (* always counting *)
  end.

(** Write a register object back into the machine. *)
Definition put (n : RegName) (r : Register) (c : Computer) : Computer :=
  set_store n (mStore r) c.

(** [mX->Set(v)] and [mX->Reset()] through a shared pointer. *)
Definition regSet (n : RegName) (v : Z) (c : Computer) : Computer :=
  put n (Reg.Set_ (reg n c) v) c.
Definition regReset (n : RegName) (c : Computer) : Computer :=
  put n (Reg.Reset (reg n c)) c.

(** The masks given to the other three components. *)
Definition gBus_mInMask : Z := PC_GPR .| GPR_OP.
Definition alu_mInMask  : Z := ADD .| ROL .| ROR .| COMA .| COMF .| CLRA .| CLRF.
Definition ram_mInMask  : Z := GPR_M.
Definition ram_mOutMask : Z := M_GPR.

(** What a phase method leaves behind. *)
Inductive Outcome :=
| Running (c : Computer)
| Exited (c : Computer)        (* exit(0) *)
| OutOfBounds.                 (* an array indexed outside its extent *)

Definition andThen (o : Outcome) (f : Computer -> Outcome) : Outcome :=
  match o with
  | Running c => f c
  | _ => o
  end.

(** [a[i]] for an array [a] and an integer index [i]. *)
Definition at_ {A} (a : list A) (i : Z) : option A :=
  if 0 <=? i then a !! Z.to_nat i else None.

(** ** class GprBus *)

Definition GprBus_FallingEdge (c : Computer) : Computer :=
  let m := Z.land (mCtrlLines c) gBus_mInMask in
  if truthy m then
    let c :=
      if m =? PC_GPR then
        let a := Z.land (Reg.Get (reg pcReg c)) 0x00ff in
        let b := Z.land (Reg.Get (reg gprReg c)) 0x00ff in
        let c := regSet pcReg b c in
        regSet gprReg a c
      else c in
    if m =? GPR_OP then
      let a := Z.shiftr (Reg.Get (reg gprReg c)) 8 in
      regSet oprReg a c
    else c
  else c.

(** ** class Adder *)

Definition set_mNextFlag (c : Computer) (v : Z) : Computer :=
  set_alu c (mkAdder v (mFlagF (alu c)) (aluStore (alu c))).
Definition set_mFlagF (c : Computer) (v : Z) : Computer :=
  set_alu c (mkAdder (mNextFlag (alu c)) v (aluStore (alu c))).
Definition set_aluStore (c : Computer) (v : Z) : Computer :=
  set_alu c (mkAdder (mNextFlag (alu c)) (mFlagF (alu c)) v).

Definition Adder_HighLevel (c : Computer) : Computer :=
  set_aluStore c (Z.land (Reg.Get (reg accReg c) + Reg.Get (reg gprReg c)) 0x0fff).

(** The two branches shared by [RolAcc] and [RorAcc]: the bit shifted
    out becomes F. *)
Definition carryOut (bit : Z) (c : Computer) : Computer :=
  if truthy bit then
    let c := set_mNextFlag c (mNextFlag (alu c) .| 0x0001) in
    regSet flgReg (mNextFlag (alu c)) c
  else
    let c := set_mNextFlag c (Z.land (mNextFlag (alu c)) 0x0002) in
    regSet flgReg (mNextFlag (alu c)) c.

Definition RolAcc (c : Computer) : Computer :=
  let c := set_aluStore c (Reg.Get (reg accReg c)) in
  let c := carryOut (Z.land (aluStore (alu c)) 0x0800) c in
  let c := set_aluStore c
             (Z.land (Z.shiftl (aluStore (alu c)) 1) 0x0fff .| mFlagF (alu c)) in
  regSet accReg (aluStore (alu c)) c.

Definition RorAcc (c : Computer) : Computer :=
  let a := Reg.Get (reg accReg c) in
  let c := carryOut (Z.land a 0x0001) c in
  let a := Z.land (Z.shiftr a 1) 0x0fff in
  let a := if truthy (mFlagF (alu c)) then a .| 0x0800 else a .| 0x0000 in
  regSet accReg a c.

(** [if (cond) body] *)
Definition when (cond : bool) (body : Computer -> Computer) (c : Computer) : Computer :=
  if cond then body c else c.

(** [FallingEdge], first half: save the current flag, then recompute Z
    from the general-purpose register. *)
Definition Adder_flags (c : Computer) : Computer :=
  let c := set_mNextFlag c (Reg.Get (reg flgReg c)) in
  let c := set_mFlagF c (if truthy (Z.land (mNextFlag (alu c)) 0x0001) then 1 else 0) in
  if truthy (Reg.Get (reg gprReg c)) then
    let c := set_mNextFlag c (Z.land (mNextFlag (alu c)) 0x0001) in
    regSet flgReg (mNextFlag (alu c)) c
  else
    let c := set_mNextFlag c (mNextFlag (alu c) .| 0x0002) in
    regSet flgReg (mNextFlag (alu c)) c.

(** [FallingEdge], second half: the block under
    [if (mControlBus & mInMask)]. *)
Definition Adder_operate (c : Computer) : Computer :=
  let m := Z.land (mCtrlLines c) alu_mInMask in
  if truthy m then
    let c := when (m =? A_GPR)
               (fun c => regSet gprReg (Z.land (Reg.Get (reg accReg c)) 0x0fff) c) c in
    let c := when (m =? ADD)
               (fun c => regSet accReg (aluStore (alu c)) c) c in
    let c := when (m =? COMA)
               (fun c => regSet accReg (Z.land (Z.lnot (Reg.Get (reg accReg c))) 0x0fff) c) c in
    let c := when (m =? COMF)
               (fun c => regSet flgReg
                           (Z.land (Z.lxor (Reg.Get (reg flgReg c)) 0x0001) 0x0003) c) c in
    let c := when (m =? CLRA) (regReset accReg) c in
    let c := when (m =? CLRF)
               (fun c => regSet flgReg (Z.land (Reg.Get (reg flgReg c)) 0x0002) c) c in
    let c := when (m =? ROL) RolAcc c in
    when (m =? ROR) RorAcc c
  else c.

Definition Adder_FallingEdge (c : Computer) : Computer :=
  Adder_operate (Adder_flags c).

(** ** class Memory *)

(** The machine-language program the constructor copies into the first
    17 cells. *)
Definition prg : list Z :=
  [ 0x0100   (* 00 CRA               *)
  ; 0x0A08   (* 01 ADDI 08    LOOP   *)
  ; 0x0F08   (* 02 ISZ  08           *)
  ; 0x0F09   (* 03 ISZ  09           *)
  ; 0x0C01   (* 04 JMP  01           *)
  ; 0x0B07   (* 05 STA  07           *)
  ; 0x0000   (* 06 HLT               *)
  ; 0x0000   (* 07 [RES]             *)
  ; 0x000A   (* 08 [ANA]             *)
  ; 0x0FFA   (* 09 [CTR] (-6)        *)
  ; 0x0001   (* 10 first number      *)
  ; 0x0003
  ; 0x0005
  ; 0x0007
  ; 0x0009
  ; 0x000B   (* 15 last number       *)
  ; 0x0000 ].

(** The constructor's loop [mStore[i] = prg[i]] over a store whose other
    cells keep what they held. *)
Definition Memory_load (image old : list Z) : list Z :=
  image ++ drop (length image) old.

Definition Memory_HighLevel (c : Computer) : Outcome :=
  if asserts (mCtrlLines c) ram_mOutMask then
    match at_ (ram c) (Reg.Get (reg marReg c)) with
    | Some w => Running (set_bus c w)
    | None => OutOfBounds
    end
  else Running c.

Definition Memory_LowLevel (c : Computer) : Outcome :=
  if asserts (mCtrlLines c) ram_mInMask then
    let a := Reg.Get (reg marReg c) in
    match at_ (ram c) a with
    | Some _ => Running (set_ram c (<[Z.to_nat a := mBusLines c]> (ram c)))
    | None => OutOfBounds
    end
  else Running c.

(** ** class Control *)

(** [Microprg], copied whole into [mMicrocode[136]]. *)
Definition mMicrocode : list Z :=
  [ PC_MAR; M_GPR .| INCPC; GPR_OP; 0; 0; 0; 0; 0                 (*   0 FETCH        *)
  ; CLRA; CLRSC; 0; 0; 0; 0; 0; 0                                 (*   8 <0001-CRA>   *)
  ; COMA; CLRSC; 0; 0; 0; 0; 0; 0                                 (*  16 <0010-CTA>   *)
  ; INCA; CLRSC; 0; 0; 0; 0; 0; 0                                 (*  24 <0011-ITA>   *)
  ; CLRF; CLRSC; 0; 0; 0; 0; 0; 0                                 (*  32 <0100-CRF>   *)
  ; COMF; CLRSC; 0; 0; 0; 0; 0; 0                                 (*  40 <0101-CTF>   *)
  ; INCPCF; CLRSC; 0; 0; 0; 0; 0; 0                               (*  48 <0110-SFZ>   *)
  ; ROR; CLRSC; 0; 0; 0; 0; 0; 0                                  (*  56 <0111-ROR>   *)
  ; ROL; CLRSC; 0; 0; 0; 0; 0; 0                                  (*  64 <1000-ROL>   *)
  ; GPR_MAR; M_GPR; ADD; CLRSC; 0; 0; 0; 0                        (*  72 <1001-ADD>   *)
  ; GPR_MAR; M_GPR; GPR_MAR; M_GPR; ADD; CLRSC; 0; 0              (*  80 <1010-ADDI>  *)
  ; GPR_MAR; A_GPR; GPR_M; CLRSC; 0; 0; 0; 0                      (*  88 <1011-STA>   *)
  ; GPR_PC; CLRSC; 0; 0; 0; 0; 0; 0                               (*  96 <1100-JMP>   *)
  ; GPR_MAR; M_GPR; GPR_PC; CLRSC; 0; 0; 0; 0                     (* 104 <1101-JMPI>  *)
  ; GPR_MAR; PC_GPR; GPR_M; INCPC; CLRSC; 0; 0; 0                 (* 112 <1110-CSR>   *)
  ; GPR_MAR; M_GPR; INCGPR; GPR_M; INCPCZ; CLRSC; 0; 0            (* 120 <1111-ISZ>   *)
  ; HLT; CLRSC; 0; 0; 0; 0; 0; 0 ].                               (* 128 <10000-HLT>  *)

(** [(BYTE)(mRegOpr->Get())] *)
Definition mOpcode (opr : Z) : Z := Z.land opr 0xff.

(** [(mOpcode == 0) ? mHltBit = 0b1000'0000 : mHltBit = 0b0000'0000] *)
Definition mHltBit (opcode : Z) : Z := if opcode =? 0 then 0x80 else 0x00.

(** The subscript of [mMicrocode] in [RisingEdge], from the operation
    register and the step counter. *)
Definition microIndex (opr steps : Z) : Z :=
  if steps >? 2 then
    Z.shiftl (mOpcode opr) 3 .| mHltBit (mOpcode opr) .| (steps - 3)
  else steps.

(** The two conditional skips: [INCPC] joins the word when [INCPCF]
    meets F = 0 or [INCPCZ] meets Z = 1. *)
Definition skips (flagF flagZ : bool) (w : Z) : Z :=
  let w := if asserts w INCPCF then (if negb flagF then w .| INCPC else w) else w in
  if asserts w INCPCZ then (if flagZ then w .| INCPC else w) else w.

Definition Control_RisingEdge (c : Computer) : Outcome :=
  let flagF := truthy (Z.land (Reg.Get (reg flgReg c)) 0x01) in
  let flagZ := truthy (Z.land (Reg.Get (reg flgReg c)) 0x02) in
  match at_ mMicrocode (microIndex (Reg.Get (reg oprReg c)) (Reg.Get (reg sReg c))) with
  | None => OutOfBounds
  | Some w =>
      let c := set_ctrl c (skips flagF flagZ w) in
      let o :=
        if asserts (mCtrlLines c) CLRSC then      (* immediate reset *)
          match at_ mMicrocode 0 with
          | Some w0 => Running (set_ctrl (regReset sReg c) w0)
          | None => OutOfBounds
          end
        else Running c in
      andThen o (fun c => if asserts (mCtrlLines c) HLT then Exited c else Running c)
  end.

(** ** class Computer: the scheduler *)

Inductive Component :=
| CRegister (n : RegName)
| CGprBus
| CAdder
| CMemory
| CControl.

(** [mComponents], in the order of the [emplace_back] calls. *)
Definition mComponents : list Component :=
  [ CRegister sReg; CRegister pcReg; CRegister accReg; CRegister gprReg
  ; CRegister flgReg; CRegister oprReg; CRegister marReg
  ; CGprBus; CAdder; CMemory; CControl ].

Definition Reset (k : Component) (c : Computer) : Outcome :=
  match k with
  | CRegister n => Running (regReset n c)
  | _ => Running c
  end.

Definition RisingEdge (k : Component) (c : Computer) : Outcome :=
  match k with
  | CControl => Control_RisingEdge c
  | _ => Running c
  end.

Definition HighLevel (k : Component) (c : Computer) : Outcome :=
  match k with
  | CRegister n =>
      Running (set_bus c (Reg.HighLevel (mCtrlLines c) (mBusLines c) (reg n c)))
  | CAdder => Running (Adder_HighLevel c)
  | CMemory => Memory_HighLevel c
  | CGprBus | CControl => Running c
  end.

Definition FallingEdge (k : Component) (c : Computer) : Outcome :=
  match k with
  | CRegister n => Running (put n (Reg.FallingEdge (mCtrlLines c) (reg n c)) c)
  | CGprBus => Running (GprBus_FallingEdge c)
  | CAdder => Running (Adder_FallingEdge c)
  | CMemory | CControl => Running c
  end.

Definition LowLevel (k : Component) (c : Computer) : Outcome :=
  match k with
  | CRegister n =>
      Running (put n (Reg.LowLevel (mCtrlLines c) (mBusLines c) (reg n c)) c)
  | CMemory => Memory_LowLevel c
  | CGprBus | CAdder | CControl => Running c
  end.

(** [for (auto& c : mComponents) c->method();] *)
Definition forEach (method : Component -> Computer -> Outcome) (c : Computer) : Outcome :=
  fold_left (fun o k => andThen o (method k)) mComponents (Running c).

(** The drive, compute and latch phases under the control word already
    on the control bus. *)
Definition phases (c : Computer) : Outcome :=
  andThen (andThen (forEach HighLevel c) (forEach FallingEdge)) (forEach LowLevel).

(** One pass of the loop body in [Computer::Update]: a four-phase tick. *)
Definition tick (c : Computer) : Outcome :=
  andThen (forEach RisingEdge c) phases.

(** A tick whose control word is given instead of decoded. *)
Definition clock (w : Z) (c : Computer) : Outcome := phases (set_ctrl c w).

Definition Computer_Reset (c : Computer) : Computer :=
  match forEach Reset c with
  | Running c' => c'
  | _ => c
  end.

(** The machine after [Computer cpu; cpu.Reset();]: [junk] stands for
    what the members that no constructor initialises happen to hold (both
    buses, the adder's temporaries, the register stores before [Reset],
    memory beyond the program image). *)
Definition power_on (junk : Computer) : Computer :=
  Computer_Reset (set_ram junk (Memory_load prg (ram junk))).

(** The same machine with another program image in memory. *)
Definition power_on_with (image : list Z) (junk : Computer) : Computer :=
  Computer_Reset (set_ram junk (Memory_load image (ram junk))).

(** [n] ticks, stopping at the first that does not leave the machine
    running. *)
Fixpoint run (n : nat) (c : Computer) : Outcome :=
  match n with
  | O => Running c
  | S n' => andThen (tick c) (run n')
  end.

(** The machine at the end of each of the first [n] ticks. *)
Fixpoint states (n : nat) (c : Computer) : list Computer :=
  match n with
  | O => []
  | S n' =>
      match tick c with
      | Running c' => c' :: states n' c'
      | _ => []
      end
  end.

(** The words the ticks in [cs] latched into memory cell [a]. *)
Definition writesTo (a : Z) (cs : list Computer) : list Z :=
  omap (fun c => if asserts (mCtrlLines c) ram_mInMask && (mar c =? a)
                 then ram c !! Z.to_nat a else None) cs.

(** A machine whose memory has its 128 cells; used as [junk] it yields
    the states the program can start from. *)
Definition full_memory (c : Computer) : Prop := length (ram c) = 128%nat.

(** The states of a run from reset, for any program image. *)
Inductive reachable : Computer -> Prop :=
| reachable_Reset c0 : full_memory c0 -> reachable (Computer_Reset c0)
| reachable_tick c c' : reachable c -> tick c = Running c' -> reachable c'.

(** ** Summaries used in the proofs

    Closed forms of what the seven registers do together in each phase;
    [forEach_HighLevel], [forEach_FallingEdge] and [forEach_LowLevel]
    below prove them equal to the scheduler's loops. *)

(** The data bus after the registers' [HighLevel]: of the registers whose
    drive condition holds, the last in [mComponents] wins. *)
Definition drive (c : Computer) : Z :=
  let w := mCtrlLines c in
  if asserts w (GPR_M .| GPR_MAR .| GPR_OP .| GPR_PC) then gpr c
  else if asserts w A_GPR then acc c
  else if asserts w (PC_MAR .| PC_GPR) then pc c
  else mBusLines c.

(** The registers' [FallingEdge]. *)
Definition count (c : Computer) : Computer :=
  let w := mCtrlLines c in
  mkComputer (mBusLines c) w
    (Z.land (steps c + 1) 0x000f)
    (if asserts w INCPC then Z.land (pc c + 1) 0x00ff else pc c)
    (if asserts w INCA then Z.land (acc c + 1) 0x0fff else acc c)
    (if asserts w INCGPR then Z.land (gpr c + 1) 0x0fff else gpr c)
    (flg c) (opr c) (mar c) (alu c) (ram c).

(** The registers' [LowLevel]. *)
Definition latch (c : Computer) : Computer :=
  let w := mCtrlLines c in
  let bus := mBusLines c in
  mkComputer bus w (steps c)
    (if asserts w GPR_PC then Z.land bus 0x00ff else pc c)
    (acc c)
    (if asserts w (PC_GPR .| A_GPR .| M_GPR) then Z.land bus 0x0fff else gpr c)
    (flg c) (opr c)
    (if asserts w (PC_MAR .| GPR_MAR) then Z.land bus 0x00ff else mar c)
    (alu c) (ram c).

(** The operation the adder performs, by the value of
    [mControlBus & mInMask]. *)
Inductive AluCase (c : Computer) : Computer -> Prop :=
| alu_idle : (forall k, In k [ADD; COMA; COMF; CLRA; CLRF; ROL; ROR] ->
              Z.land (mCtrlLines c) alu_mInMask <> k) -> AluCase c c
| alu_ADD : Z.land (mCtrlLines c) alu_mInMask = ADD ->
    AluCase c (regSet accReg (aluStore (alu c)) c)
| alu_COMA : Z.land (mCtrlLines c) alu_mInMask = COMA ->
    AluCase c (regSet accReg (Z.land (Z.lnot (acc c)) 0x0fff) c)
| alu_COMF : Z.land (mCtrlLines c) alu_mInMask = COMF ->
    AluCase c (regSet flgReg (Z.land (Z.lxor (flg c) 0x0001) 0x0003) c)
| alu_CLRA : Z.land (mCtrlLines c) alu_mInMask = CLRA ->
    AluCase c (regReset accReg c)
| alu_CLRF : Z.land (mCtrlLines c) alu_mInMask = CLRF ->
    AluCase c (regSet flgReg (Z.land (flg c) 0x0002) c)
| alu_ROL : Z.land (mCtrlLines c) alu_mInMask = ROL -> AluCase c (RolAcc c)
| alu_ROR : Z.land (mCtrlLines c) alu_mInMask = ROR -> AluCase c (RorAcc c).

(** The operation the transfer unit performs, by the value of
    [mControlBus & mInMask]. *)
Inductive BusCase (c : Computer) : Computer -> Prop :=
| bus_idle : Z.land (mCtrlLines c) gBus_mInMask <> PC_GPR ->
             Z.land (mCtrlLines c) gBus_mInMask <> GPR_OP -> BusCase c c
| bus_PC_GPR : Z.land (mCtrlLines c) gBus_mInMask = PC_GPR ->
    BusCase c (set_store gprReg (Z.land (Z.land (pc c) 0x00ff) 0x0fff)
                 (set_store pcReg (Z.land (Z.land (gpr c) 0x00ff) 0x00ff) c))
| bus_GPR_OP : Z.land (mCtrlLines c) gBus_mInMask = GPR_OP ->
    BusCase c (set_store oprReg (Z.land (Z.shiftr (gpr c) 8) 0x000f) c).

(** The drive conditions of every component other than the accumulator:
    the out-masks of [gprReg], of [pcReg] and of the memory. *)
Definition other_drivers : Z :=
  (GPR_M .| GPR_MAR .| GPR_OP .| GPR_PC) .| (PC_MAR .| PC_GPR) .| ram_mOutMask.

(** The conditions under which something writes the accumulator. *)
Definition acc_writers : Z := INCA .| alu_mInMask.

(** The integers [0 .. n-1]. *)
Definition Zupto (n : nat) : list Z := map Z.of_nat (seq 0 n).

(** Every word [Control::RisingEdge] can leave on the control bus: a
    table entry after the conditional skips, or the first fetch entry
    after a clear. *)
Definition emitted : list Z :=
  PC_MAR ::
  flat_map (fun w => [skips false false w; skips false true w;
                      skips true false w; skips true true w]) mMicrocode.

(** Where the execute block of an opcode starts in the table. *)
Definition blockBase (opcode : Z) : Z := Z.shiftl opcode 3 .| mHltBit opcode.

(** The words that end an instruction. *)
Definition ends (w : Z) : bool := asserts w CLRSC || asserts w HLT.

Fixpoint firstEnd (ws : list Z) : Z :=
  match ws with
  | [] => 0
  | w :: ws' => if ends w then 0 else 1 + firstEnd ws'
  end.

(** The step, counted from the start of the opcode's block, at which the
    instruction ends. *)
Definition lastStep (opcode : Z) : Z :=
  firstEnd (take 8 (drop (Z.to_nat (blockBase opcode)) mMicrocode)).

(** The sequencing invariant: a 4-bit opcode, and a 4-bit step counter
    that is either fetching or has not passed the end of the opcode's
    block. *)
Definition in_sequence (opr steps : Z) : bool :=
  (0 <=? opr) && (opr <=? 15) && (0 <=? steps) && (steps <=? 15) &&
  ((steps <=? 2) || (steps - 3 <=? lastStep opr)).

(** The control unit alone: from opcode, step counter and the two flags
    to the published word and the step counter the compute phase will
    increment; [None] when the tick exits or leaves the table. *)
Definition sequencer (opr steps : Z) (flagF flagZ : bool) : option (Z * Z) :=
  match at_ mMicrocode (microIndex opr steps) with
  | None => None
  | Some w =>
      let w := skips flagF flagZ w in
      if asserts w CLRSC then
        (if asserts PC_MAR HLT then None else Some (PC_MAR, 0))
      else if asserts w HLT then None else Some (w, steps)
  end.

(** One step of the invariant, as a check over the finitely many control
    situations. *)
Definition sequence_kept (opr steps : Z) (flagF flagZ : bool) : bool :=
  implb (in_sequence opr steps)
    (match sequencer opr steps flagF flagZ with
     | None => true
     | Some (w, s) =>
         let s' := Z.land (s + 1) 0x000f in
         if Z.land w gBus_mInMask =? GPR_OP
         then forallb (fun o => in_sequence o s') (Zupto 16)
         else in_sequence opr s'
     end).

(** The claim about the microcode subscript, as a check. *)
Definition index_as_stated (opr steps : Z) : bool :=
  implb (in_sequence opr steps)
    (let i := microIndex opr steps in
     let haltRedirect := if mOpcode opr =? 0 then 128 else 0 in
     (if steps <=? 2 then i =? steps
      else (i =? mOpcode opr * 8 + haltRedirect + (steps - 3))
           && (0 <=? steps - 3) && (steps - 3 <=? 7)
           && implb (mOpcode opr =? 0) ((128 <=? i) && (i <=? 135)))
     && (0 <=? i) && (i <=? 135)
     && match at_ mMicrocode i with Some _ => true | None => false end).

(** The carry flip-flop F and the zero indicator Z in the flag word. *)
Definition flagF (c : Computer) : bool := Z.testbit (flg c) 0.
Definition flagZ (c : Computer) : bool := Z.testbit (flg c) 1.

(** The accumulator after [RolAcc] and after [RorAcc], as functions of
    the accumulator and the carry before; [clock_ROL] and [clock_ROR]
    below prove that this is what the two ticks compute.  [rotations_undo]
    is the round trip on one value, to be checked on all of them. *)
Definition rolA (a : Z) (f : bool) : Z :=
  Z.land (Z.land (Z.shiftl a 1) 0x0fff .| Z.b2z f) 0x0fff.
Definition rorA (a : Z) (f : bool) : Z :=
  Z.land (Z.land (Z.shiftr a 1) 0x0fff .| (if f then 0x0800 else 0x0000)) 0x0fff.
Definition rotations_undo (a : Z) (f : bool) : bool :=
  (rorA (rolA a f) (truthy (Z.land a 0x0800)) =? a) &&
  eqb (truthy (Z.land (rolA a f) 0x0001)) f &&
  (rolA (rorA a f) (truthy (Z.land a 0x0001)) =? a) &&
  eqb (truthy (Z.land (rorA a f) 0x0800)) f.

(** ** Machines used as examples *)

(** Uninitialised members all zero, memory of 128 zero cells. *)
Definition junk0 : Computer :=
  mkComputer 0 0 0 0 0 0 0 0 0 (mkAdder 0 0 0) (repeat 0 128%nat).

(** A one-instruction program: [ADD 80], whose operand is cell 128. *)
Definition prg_add_0x80 : list Z := [ 0x0980 ].

(** A one-instruction program: [CSR 20]. *)
Definition prg_csr_0x20 : list Z := [ 0x0E20 ].

(** The machine [n] ticks after [c], when all of them leave it running. *)
Definition after (n : nat) (c : Computer) : Computer :=
  match run n c with
  | Running c' => c'
  | _ => c
  end.

(** An 8-bit register like the program counter, holding a stale 16-bit
    value before its first [Reset]. *)
Definition stale_pc : Register :=
  Register_new GPR_PC (PC_MAR .| PC_GPR) INCPC 0x00ff 0xBEEF.

(** A machine in the middle of an [INCGPR] tick, the general-purpose
    register about to wrap from 0xFFF to zero. *)
Definition wrapping_gpr : Computer :=
  mkComputer 0 INCGPR 5 3 7 0x0FFF 1 15 9 (mkAdder 0 0 0) (repeat 0 128%nat).

(** A machine with 0xABC in the accumulator and F set. *)
Definition rotating : Computer :=
  mkComputer 0 0 4 1 0x0ABC 5 1 8 0 (mkAdder 0 0 0) (repeat 0 128%nat).

(** ** Notions used beyond the claims *)

(** Every register of the machine inside its declared width. *)
Definition widths (c : Computer) : Prop := forall n, Reg.in_width (reg n c).

(** The out-masks and in-masks of the components that use the data bus,
    in the order of [mComponents]. *)
Definition out_masks : list Z :=
  [ PC_MAR .| PC_GPR; A_GPR; GPR_M .| GPR_MAR .| GPR_OP .| GPR_PC; ram_mOutMask ].
Definition in_masks : list Z :=
  [ GPR_PC; PC_GPR .| A_GPR .| M_GPR; PC_MAR .| GPR_MAR; ram_mInMask ].

(** How many components drive the bus under a control word, and whether
    any component latches it. *)
Definition drivers (w : Z) : nat := length (filter (fun m => asserts w m) out_masks).
Definition latches (w : Z) : bool := existsb (asserts w) in_masks.

(** The two fields the machine takes from an instruction word: the latch
    of [gprReg] keeps 12 bits, [GprBus] moves bits 8..11 to [oprReg], and
    the latch of [marReg] keeps bits 0..7. *)
Definition opcode_field (word : Z) : Z :=
  Z.land (Z.shiftr (Z.land word 0x0fff) 8) 0x000f.
Definition address_field (word : Z) : Z := Z.land word 0x00ff.

(** Between two instructions: the clear tick of the last one has already
    done the first fetch step, so the step counter is 1 and the memory
    address register holds the program counter. *)
Definition boundary (c : Computer) : Prop := steps c = 1 /\ mar c = pc c.

(** The flag word after the adder has recomputed Z from the
    general-purpose register. *)
Definition zeroFlag (g f : Z) : Z :=
  Z.land (if truthy g then Z.land f 0x0001 else f .| 0x0002) 0x0003.

(** The adder's temporaries after its [FallingEdge] when no operation
    fires. *)
Definition idleAdder (g f store : Z) : AdderState :=
  mkAdder (if truthy g then Z.land f 0x0001 else f .| 0x0002)
          (if truthy (Z.land f 0x0001) then 1 else 0) store.

(** The adder's [mNextFlag] after the recomputation of Z, and after a
    rotation has moved the bit shifted out into F. *)
Definition zeroed (g f : Z) : Z :=
  if truthy g then Z.land f 0x0001 else f .| 0x0002.
Definition carried (bit nf : Z) : Z :=
  if truthy bit then nf .| 0x0001 else Z.land nf 0x0002.

(** The machine one tick after reset with [image] in memory: the first
    instruction boundary, program counter 0. *)
Definition at_boundary (image : list Z) : Computer :=
  after 1 (power_on_with image junk0).

(** A machine at an instruction boundary, program counter 0, with
    accumulator [a], flag word [f] and [image] in a memory of zeros. *)
Definition poised (a f : Z) (image : list Z) : Computer :=
  mkComputer 0 0 1 0 a 0 f 0 0 (mkAdder 0 0 0)
             (Memory_load image (repeat 0 128%nat)).

(** [n] ticks under the same control word. *)
Fixpoint clocks (w : Z) (n : nat) (c : Computer) : Outcome :=
  match n with
  | O => Running c
  | S n' => andThen (clock w c) (clocks w n')
  end.

(** [n] rotations to the left of an accumulator and a carry. *)
Fixpoint rotl (n : nat) (a : Z) (f : bool) : Z * bool :=
  match n with
  | O => (a, f)
  | S n' => rotl n' (rolA a f) (truthy (Z.land a 0x0800))
  end.

(** * Properties *)

(** ** Tools *)

Lemma asserts_0 w : asserts w 0 = false.
Proof. unfold asserts. now rewrite Z.land_0_r. Qed.

Lemma andThen_id o f : (forall c, f c = Running c) -> andThen o f = o.
Proof. intros H. destruct o; cbn; auto. Qed.

(** [ground t] succeeds when no variable of the context occurs in [t]. *)
Ltac ground t :=
  match t with
  | context [?v] => is_var v; fail 1
  | _ => idtac
  end.

(** Evaluate the tests whose operands are constants. *)
Ltac closed_tests :=
  repeat match goal with
  | |- context [asserts ?a ?b] =>
      ground a; ground b;
      let v := eval vm_compute in (asserts a b) in
      change (asserts a b) with v
  | |- context [Z.eqb ?a ?b] =>
      ground a; ground b;
      let v := eval vm_compute in (Z.eqb a b) in
      change (Z.eqb a b) with v
  | |- context [truthy ?a] =>
      ground a;
      let v := eval vm_compute in (truthy a) in
      change (truthy a) with v
  end.

(** A property checked on [Zupto n] holds on the interval. *)
Lemma Zupto_spec (P : Z -> bool) (n : nat) :
  forallb P (Zupto n) = true ->
  forall z, 0 <= z < Z.of_nat n -> P z = true.
Proof.
  intros H z Hz. rewrite forallb_forall in H. apply H.
  unfold Zupto. apply in_map_iff. exists (Z.to_nat z). split; [ lia | ].
  apply in_seq. lia.
Qed.

(** ** The phases in closed form *)

Lemma forEach_RisingEdge c : forEach RisingEdge c = Control_RisingEdge c.
Proof. reflexivity. Qed.

Lemma forEach_HighLevel c :
  forEach HighLevel c = Memory_HighLevel (Adder_HighLevel (set_bus c (drive c))).
Proof.
  destruct c as [bus ctrl s p a g f o m al r].
  unfold forEach, drive. cbn. unfold Reg.HighLevel. cbn.
  rewrite !asserts_0. cbn.
  rewrite andThen_id by reflexivity. reflexivity.
Qed.

Lemma forEach_FallingEdge c :
  forEach FallingEdge c = Running (Adder_FallingEdge (GprBus_FallingEdge (count c))).
Proof.
  destruct c as [bus ctrl s p a g f o m al r].
  unfold forEach, count. cbn. unfold Reg.FallingEdge. cbn.
  rewrite !asserts_0, !orb_false_r, orb_true_r. cbn.
  destruct (asserts ctrl INCPC), (asserts ctrl INCA), (asserts ctrl INCGPR); reflexivity.
Qed.

Lemma forEach_LowLevel c : forEach LowLevel c = Memory_LowLevel (latch c).
Proof.
  destruct c as [bus ctrl s p a g f o m al r].
  unfold forEach, latch. cbn. unfold Reg.LowLevel. cbn.
  rewrite !asserts_0. cbn.
  rewrite andThen_id by reflexivity.
  destruct (asserts ctrl GPR_PC), (asserts ctrl (PC_GPR .| A_GPR .| M_GPR)),
    (asserts ctrl (PC_MAR .| GPR_MAR)); reflexivity.
Qed.

(** ** The adder *)

(** No control word selects the adder's [A_GPR] branch: bit 7 is not in
    the adder's mask. *)
Lemma alu_never_A_GPR w : Z.land w alu_mInMask <> A_GPR.
Proof.
  intro H. apply (f_equal (fun x => Z.testbit x 7)) in H.
  rewrite Z.land_spec in H.
  change (Z.testbit alu_mInMask 7) with false in H.
  change (Z.testbit A_GPR 7) with true in H.
  rewrite andb_false_r in H. discriminate.
Qed.

Lemma Adder_operate_cases c : AluCase c (Adder_operate c).
Proof.
  unfold Adder_operate. cbv zeta.
  pose proof (alu_never_A_GPR (mCtrlLines c)) as HA.
  remember (Z.land (mCtrlLines c) alu_mInMask) as k eqn:Hk.
  destruct (truthy k) eqn:Hz.
  2:{ apply alu_idle. intros k' Hin E. rewrite <- Hk in E. rewrite E in Hz.
      cbn in Hin.
      repeat (destruct Hin as [<- | Hin]; [ discriminate Hz | ]). exact Hin. }
  unfold when.
  destruct (Z.eqb_spec k A_GPR) as [e|nA]; [ contradiction | ].
  destruct (Z.eqb_spec k ADD) as [e|n1];
    [ rewrite e in *; closed_tests; apply alu_ADD; congruence | ].
  destruct (Z.eqb_spec k COMA) as [e|n2];
    [ rewrite e in *; closed_tests; apply alu_COMA; congruence | ].
  destruct (Z.eqb_spec k COMF) as [e|n3];
    [ rewrite e in *; closed_tests; apply alu_COMF; congruence | ].
  destruct (Z.eqb_spec k CLRA) as [e|n4];
    [ rewrite e in *; closed_tests; apply alu_CLRA; congruence | ].
  destruct (Z.eqb_spec k CLRF) as [e|n5];
    [ rewrite e in *; closed_tests; apply alu_CLRF; congruence | ].
  destruct (Z.eqb_spec k ROL) as [e|n6];
    [ rewrite e in *; closed_tests; apply alu_ROL; congruence | ].
  destruct (Z.eqb_spec k ROR) as [e|n7];
    [ rewrite e in *; closed_tests; apply alu_ROR; congruence | ].
  apply alu_idle. intros k' Hin. rewrite <- Hk. cbn in Hin.
  repeat (destruct Hin as [<- | Hin]; [ assumption | ]). destruct Hin.
Qed.

(** Bit-level goals: push [Z.testbit] through the operators and evaluate
    it on constants. *)
Ltac closed_bits :=
  repeat match goal with
  | |- context [Z.testbit ?a ?n] =>
      let v := eval vm_compute in (Z.testbit a n) in
      match v with
      | true => change (Z.testbit a n) with true
      | false => change (Z.testbit a n) with false
      end
  end.

Ltac bits :=
  repeat (rewrite Z.land_spec || rewrite Z.lor_spec || rewrite Z.lxor_spec);
  closed_bits;
  repeat (rewrite andb_true_r || rewrite andb_false_r || rewrite orb_true_r
          || rewrite orb_false_r || rewrite xorb_false_r || rewrite xorb_true_r);
  try reflexivity.

Lemma Adder_flags_eq c :
  Adder_flags c =
  let nf := if truthy (gpr c) then Z.land (flg c) 0x0001 else flg c .| 0x0002 in
  set_alu (set_store flgReg (Z.land nf 0x0003) c)
          (mkAdder nf (if truthy (Z.land (flg c) 0x0001) then 1 else 0)
                   (aluStore (alu c))).
Proof.
  destruct c as [bus ctrl s p a g f o m al r].
  unfold Adder_flags. cbn. destruct (truthy g); reflexivity.
Qed.

(** After the adder's [FallingEdge], Z says whether the general-purpose
    register is zero; the register itself is untouched. *)
Lemma Adder_FallingEdge_zero c :
  gpr (Adder_FallingEdge c) = gpr c /\
  flagZ (Adder_FallingEdge c) = (gpr c =? 0).
Proof.
  unfold Adder_FallingEdge, flagZ.
  destruct (Adder_operate_cases (Adder_flags c)) as [_|_|_|_|_|_|_|_];
    rewrite Adder_flags_eq;
    destruct c as [bus ctrl s p a g f o m al r];
    unfold RolAcc, RorAcc, carryOut; cbn -[Z.testbit]; unfold truthy;
    repeat match goal with
    | |- context [if negb (?x =? 0) then _ else _] => destruct (x =? 0); cbn [negb]
    end; cbn -[Z.testbit]; (split; [ reflexivity | bits ]).
Qed.

(** The adder leaves F alone unless it complements, clears or rotates. *)
Lemma Adder_FallingEdge_carry c :
  let k := Z.land (mCtrlLines c) alu_mInMask in
  k <> COMF -> k <> CLRF -> k <> ROL -> k <> ROR ->
  flagF (Adder_FallingEdge c) = flagF c.
Proof.
  intros k n1 n2 n3 n4. unfold Adder_FallingEdge, flagF.
  assert (Hc : mCtrlLines (Adder_flags c) = mCtrlLines c).
  { rewrite Adder_flags_eq. now destruct c. }
  destruct (Adder_operate_cases (Adder_flags c)) as [_|_|_|E|_|E|E|E];
    try (rewrite Hc in E; contradiction);
    rewrite Adder_flags_eq;
    destruct c as [bus ctrl s p a g f o m al r];
    cbn -[Z.testbit]; unfold truthy;
    repeat match goal with
    | |- context [if negb (?x =? 0) then _ else _] => destruct (x =? 0); cbn [negb]
    end; cbn -[Z.testbit]; bits.
Qed.

(** What the adder never touches. *)
Lemma Adder_FallingEdge_frame c :
  let c' := Adder_FallingEdge c in
  mBusLines c' = mBusLines c /\ mCtrlLines c' = mCtrlLines c /\
  steps c' = steps c /\ pc c' = pc c /\ gpr c' = gpr c /\
  opr c' = opr c /\ mar c' = mar c /\ ram c' = ram c.
Proof.
  cbv zeta. unfold Adder_FallingEdge.
  destruct (Adder_operate_cases (Adder_flags c)) as [_|_|_|_|_|_|_|_];
    rewrite Adder_flags_eq;
    destruct c as [bus ctrl s p a g f o m al r];
    unfold RolAcc, RorAcc, carryOut; cbn; unfold truthy;
    repeat match goal with
    | |- context [if negb (?x =? 0) then _ else _] => destruct (x =? 0); cbn [negb]
    end; cbn; repeat split.
Qed.

(** With none of its control lines asserted the adder leaves the
    accumulator alone. *)
Lemma Adder_FallingEdge_idle c :
  Z.land (mCtrlLines c) alu_mInMask = 0 ->
  acc (Adder_FallingEdge c) = acc c.
Proof.
  intros H0. unfold Adder_FallingEdge.
  assert (Hc : mCtrlLines (Adder_flags c) = mCtrlLines c).
  { rewrite Adder_flags_eq. now destruct c. }
  destruct (Adder_operate_cases (Adder_flags c)) as [_|E|E|E|E|E|E|E];
    try (rewrite Hc, H0 in E; discriminate E).
  rewrite Adder_flags_eq. now destruct c.
Qed.

(** ** The transfer unit *)

Lemma GprBus_FallingEdge_cases c : BusCase c (GprBus_FallingEdge c).
Proof.
  unfold GprBus_FallingEdge. cbv zeta.
  remember (Z.land (mCtrlLines c) gBus_mInMask) as k eqn:Hk.
  destruct (truthy k) eqn:Hz.
  2:{ apply bus_idle; rewrite <- Hk; intros E; rewrite E in Hz; discriminate Hz. }
  destruct (Z.eqb_spec k PC_GPR) as [e|n1].
  - rewrite e in *. closed_tests. destruct c. apply bus_PC_GPR. cbn in *. congruence.
  - destruct (Z.eqb_spec k GPR_OP) as [e|n2].
    + destruct c. apply bus_GPR_OP. cbn in *. congruence.
    + apply bus_idle; congruence.
Qed.

Lemma GprBus_FallingEdge_frame c :
  let c' := GprBus_FallingEdge c in
  mBusLines c' = mBusLines c /\ mCtrlLines c' = mCtrlLines c /\
  steps c' = steps c /\ acc c' = acc c /\ flg c' = flg c /\
  mar c' = mar c /\ alu c' = alu c /\ ram c' = ram c.
Proof.
  cbv zeta. destruct (GprBus_FallingEdge_cases c); destruct c; cbn; repeat split.
Qed.

(** ** Submasks *)

Lemma asserts_submask w m m' :
  Z.land w m = 0 -> Z.land m' m = m' -> asserts w m' = false.
Proof.
  intros H0 Hs. unfold asserts, truthy.
  rewrite <- Hs, (Z.land_comm m' m), Z.land_assoc, H0, Z.land_0_l. reflexivity.
Qed.

Lemma asserts_supermask w m m' :
  asserts w m' = true -> Z.land m' m = m' -> asserts w m = true.
Proof.
  intros Ht Hs. destruct (asserts w m) eqn:E; [ reflexivity | ].
  unfold asserts, truthy in E. apply negb_false_iff, Z.eqb_eq in E.
  rewrite (asserts_submask w m m' E Hs) in Ht. discriminate.
Qed.

(** ** The control unit *)

Lemma Control_RisingEdge_Running c c1 :
  Control_RisingEdge c = Running c1 ->
  exists w s,
    sequencer (opr c) (steps c) (truthy (Z.land (flg c) 0x01))
              (truthy (Z.land (flg c) 0x02)) = Some (w, s) /\
    c1 = set_ctrl (set_store sReg s c) w.
Proof.
  unfold Control_RisingEdge, sequencer. cbn -[at_ mMicrocode].
  destruct (at_ mMicrocode (microIndex (opr c) (steps c))) as [w|]; [ | discriminate ].
  cbn -[at_ mMicrocode skips].
  destruct (asserts (skips _ _ w) CLRSC).
  - change (at_ mMicrocode 0) with (Some PC_MAR). cbn -[skips].
    closed_tests. intros [= <-]. exists PC_MAR, 0. split; reflexivity.
  - cbn -[skips]. destruct (asserts (skips _ _ w) HLT); [ discriminate | ].
    intros [= <-]. eexists _, _. split; [ reflexivity | ]. now destruct c.
Qed.

(** The three later phases never touch the control bus. *)
Lemma Memory_HighLevel_Running c c' :
  Memory_HighLevel c = Running c' ->
  (asserts (mCtrlLines c) ram_mOutMask = false /\ c' = c) \/
  (asserts (mCtrlLines c) ram_mOutMask = true /\
   exists w, at_ (ram c) (mar c) = Some w /\ c' = set_bus c w).
Proof.
  unfold Memory_HighLevel. destruct (asserts _ _).
  - cbn. destruct (at_ _ _) as [w|]; [ | discriminate ].
    intros [= <-]. right. eauto.
  - intros [= <-]. now left.
Qed.

Lemma Memory_LowLevel_Running c c' :
  Memory_LowLevel c = Running c' ->
  (asserts (mCtrlLines c) ram_mInMask = false /\ c' = c) \/
  (asserts (mCtrlLines c) ram_mInMask = true /\
   is_Some (at_ (ram c) (mar c)) /\
   c' = set_ram c (<[Z.to_nat (mar c) := mBusLines c]> (ram c))).
Proof.
  unfold Memory_LowLevel. destruct (asserts _ _).
  - cbn. destruct (at_ _ _) as [w|]; [ | discriminate ].
    intros [= <-]. right. eauto.
  - intros [= <-]. now left.
Qed.

(** The three phases, unfolded. *)
Lemma phases_Running c c' :
  phases c = Running c' ->
  exists c2 c3,
    Memory_HighLevel (Adder_HighLevel (set_bus c (drive c))) = Running c2 /\
    c3 = Adder_FallingEdge (GprBus_FallingEdge (count c2)) /\
    Memory_LowLevel (latch c3) = Running c'.
Proof.
  unfold phases. rewrite forEach_HighLevel.
  destruct (Memory_HighLevel _) as [c2| |]; cbn [andThen]; try discriminate.
  rewrite forEach_FallingEdge. cbn [andThen]. rewrite forEach_LowLevel. eauto.
Qed.

Lemma tick_Running c c' :
  tick c = Running c' ->
  exists w s,
    sequencer (opr c) (steps c) (truthy (Z.land (flg c) 0x01))
              (truthy (Z.land (flg c) 0x02)) = Some (w, s) /\
    forEach RisingEdge c = Running (set_ctrl (set_store sReg s c) w) /\
    phases (set_ctrl (set_store sReg s c) w) = Running c'.
Proof.
  unfold tick. rewrite forEach_RisingEdge.
  destruct (Control_RisingEdge c) as [c1| |] eqn:E; cbn [andThen]; try discriminate.
  destruct (Control_RisingEdge_Running _ _ E) as (w & s & Hs & ->). eauto 6.
Qed.

Lemma phases_ctrl c c' : phases c = Running c' -> mCtrlLines c' = mCtrlLines c.
Proof.
  intros H. destruct (phases_Running _ _ H) as (c2 & c3 & H2 & -> & H4).
  assert (E2 : mCtrlLines c2 = mCtrlLines c).
  { destruct (Memory_HighLevel_Running _ _ H2) as [[_ ->]|[_ (w & _ & ->)]]; now destruct c. }
  set (c3 := Adder_FallingEdge _) in *.
  assert (E3 : mCtrlLines c3 = mCtrlLines c).
  { unfold c3.
    destruct (Adder_FallingEdge_frame (GprBus_FallingEdge (count c2))) as (_ & -> & _).
    destruct (GprBus_FallingEdge_frame (count c2)) as (_ & -> & _). exact E2. }
  destruct (Memory_LowLevel_Running _ _ H4) as [[_ ->]|[_ [_ ->]]]; exact E3.
Qed.

(** ** The sequencing invariant *)

Lemma land_15_range x : 0 <= Z.land x 0x000f < 16.
Proof.
  change 0x000f with (Z.ones 4). rewrite Z.land_ones by lia.
  apply Z.mod_pos_bound. reflexivity.
Qed.

Lemma in_sequence_range o s :
  in_sequence o s = true -> 0 <= o < 16 /\ 0 <= s < 16.
Proof.
  unfold in_sequence. rewrite !andb_true_iff, !Z.leb_le. lia.
Qed.

(** Checked on the 16 x 16 x 2 x 2 control situations. *)
Lemma sequence_kept_always o s f z : sequence_kept o s f z = true.
Proof.
  destruct (in_sequence o s) eqn:E;
    [ | unfold sequence_kept; now rewrite E ].
  destruct (in_sequence_range _ _ E) as [Ho Hs].
  assert (H : forallb (fun o => forallb (fun s =>
                 sequence_kept o s false false && sequence_kept o s false true &&
                 sequence_kept o s true false && sequence_kept o s true true)
               (Zupto 16)) (Zupto 16) = true) by (vm_compute; reflexivity).
  pose proof (Zupto_spec _ _ H o Ho) as H1. cbv beta in H1.
  pose proof (Zupto_spec _ _ H1 s Hs) as H2. cbv beta in H2.
  rewrite !andb_true_iff in H2. destruct f, z; tauto.
Qed.

Lemma index_as_stated_always o s : index_as_stated o s = true.
Proof.
  destruct (in_sequence o s) eqn:E;
    [ | unfold index_as_stated; now rewrite E ].
  destruct (in_sequence_range _ _ E) as [Ho Hs].
  assert (H : forallb (fun o => forallb (index_as_stated o) (Zupto 16)) (Zupto 16) = true)
    by (vm_compute; reflexivity).
  pose proof (Zupto_spec _ _ H o Ho) as H1. cbv beta in H1.
  exact (Zupto_spec _ _ H1 s Hs).
Qed.

(** What the three phases do to the step counter and the operation
    register. *)
Lemma phases_steps_opr c c' :
  phases c = Running c' ->
  steps c' = Z.land (steps c + 1) 0x000f /\
  ((Z.land (mCtrlLines c) gBus_mInMask <> GPR_OP /\ opr c' = opr c) \/
   (Z.land (mCtrlLines c) gBus_mInMask = GPR_OP /\ 0 <= opr c' < 16)).
Proof.
  intros H. destruct (phases_Running _ _ H) as (c2 & c3 & H2 & E3 & H4).
  assert (E2 : steps c2 = steps c /\ opr c2 = opr c /\ mCtrlLines c2 = mCtrlLines c).
  { destruct (Memory_HighLevel_Running _ _ H2) as [[_ ->]|[_ (w & _ & ->)]];
      now destruct c. }
  destruct E2 as (Es2 & Eo2 & Ec2).
  destruct (Adder_FallingEdge_frame (GprBus_FallingEdge (count c2)))
    as (_ & _ & As & _ & _ & Ao & _).
  destruct (GprBus_FallingEdge_frame (count c2)) as (_ & _ & Gs & _).
  rewrite <- E3 in As, Ao.
  assert (E4 : steps c' = steps c3 /\ opr c' = opr c3).
  { destruct (Memory_LowLevel_Running _ _ H4) as [[_ ->]|[_ [_ ->]]];
      now destruct c3. }
  destruct E4 as [-> ->]. rewrite As, Ao, Gs. split.
  - unfold count. cbn [steps]. now rewrite Es2.
  - destruct (GprBus_FallingEdge_cases (count c2)) as [n1 n2|e|e];
      replace (mCtrlLines (count c2)) with (mCtrlLines c) in *
        by (rewrite <- Ec2; reflexivity).
    + left. split; [ exact n2 | ]. rewrite <- Eo2. reflexivity.
    + left. split; [ rewrite e; discriminate | ]. rewrite <- Eo2. now destruct c2.
    + right. split; [ exact e | ]. destruct c2. cbn. apply land_15_range.
Qed.

Lemma tick_in_sequence c c' :
  tick c = Running c' ->
  in_sequence (opr c) (steps c) = true ->
  in_sequence (opr c') (steps c') = true.
Proof.
  intros Ht Hi.
  destruct (tick_Running _ _ Ht) as (w & s & Hs & _ & Hp).
  pose proof (sequence_kept_always (opr c) (steps c)
                (truthy (Z.land (flg c) 0x01)) (truthy (Z.land (flg c) 0x02))) as K.
  unfold sequence_kept in K. rewrite Hi, Hs in K. cbn [implb] in K.
  destruct (phases_steps_opr _ _ Hp) as [Es Eo].
  replace (steps (set_ctrl (set_store sReg s c) w)) with s in * by now destruct c.
  replace (opr (set_ctrl (set_store sReg s c) w)) with (opr c) in * by now destruct c.
  replace (mCtrlLines (set_ctrl (set_store sReg s c) w)) with w in * by now destruct c.
  rewrite Es. destruct Eo as [[n ->]|[e Ho]].
  - apply Z.eqb_neq in n. now rewrite n in K.
  - apply Z.eqb_eq in e. rewrite e in K.
    exact (Zupto_spec _ _ K _ Ho).
Qed.

Lemma Computer_Reset_eq c :
  Computer_Reset c =
  mkComputer (mBusLines c) (mCtrlLines c) 0 0 0 0 0 0 0 (alu c) (ram c).
Proof. now destruct c. Qed.

Lemma reachable_in_sequence c :
  reachable c -> in_sequence (opr c) (steps c) = true.
Proof.
  induction 1 as [c0 _|c c' _ IH Ht].
  - rewrite Computer_Reset_eq. reflexivity.
  - exact (tick_in_sequence _ _ Ht IH).
Qed.

Lemma run_reachable n : forall c c',
  reachable c -> run n c = Running c' -> reachable c'.
Proof.
  induction n as [|n IH]; intros c c' Hr; cbn [run].
  - now intros [= <-].
  - destruct (tick c) as [c1| |] eqn:Ht; cbn [andThen]; try discriminate.
    apply IH. exact (reachable_tick _ _ Hr Ht).
Qed.

(** Loading an image that fits leaves the store its size. *)
Lemma Memory_load_length (image old : list Z) :
  (length image <= length old)%nat ->
  length (Memory_load image old) = length old.
Proof.
  intros H. unfold Memory_load. rewrite length_app, length_drop. lia.
Qed.

Lemma power_on_with_reachable image junk :
  (length image <= 128)%nat -> full_memory junk ->
  reachable (power_on_with image junk).
Proof.
  intros Hi H. unfold power_on_with. apply reachable_Reset.
  unfold full_memory in *. destruct junk as [? ? ? ? ? ? ? ? ? ? r].
  cbn [ram set_ram] in *. rewrite Memory_load_length; lia.
Qed.

Lemma power_on_reachable junk : full_memory junk -> reachable (power_on junk).
Proof.
  intros H. apply (power_on_with_reachable prg junk); [ cbn; lia | exact H ].
Qed.

Lemma reachable_after n junk c :
  full_memory junk -> run n (power_on junk) = Running c -> reachable c.
Proof. intros H. apply run_reachable, power_on_reachable, H. Qed.


(** ** The built-in program *)

(** C1. From reset, with the program image and the microcode table of the
    source, the 178th tick decodes the halt word and exits; memory cell 7
    (RES) then holds 36 = 1+3+5+7+9+11.  Cell 9 (CTR) starts at 0xFFA
    (-6 in 12 bits) and is written six times, with 0xFFB, 0xFFC, 0xFFD,
    0xFFE, 0xFFF and 0: one increment per loop iteration.  This holds
    whatever the uninitialised members hold. *)
Theorem default_program_sums_to_36 (junk : Computer) :
  exists final,
    run 178 (power_on junk) = Exited final /\
    (exists before, run 177 (power_on junk) = Running before) /\
    asserts (mCtrlLines final) HLT = true /\
    ram final !! 7%nat = Some 36 /\
    ram (power_on junk) !! 9%nat = Some 0xFFA /\
    writesTo 9 (states 178 (power_on junk)) = [0xFFB; 0xFFC; 0xFFD; 0xFFE; 0xFFF; 0] /\
    ram final !! 9%nat = Some 0 /\
    1 + 3 + 5 + 7 + 9 + 11 = 36.
Proof.
  eexists. split; [ vm_compute; reflexivity | ].
  split; [ eexists; vm_compute; reflexivity | ].
  repeat split; vm_compute; reflexivity.
Qed.

(** ** Accumulator to general-purpose register *)

(** The three phases under a word that asserts [A_GPR] and no other drive
    condition. *)
Lemma phases_A_GPR c c' :
  phases c = Running c' ->
  asserts (mCtrlLines c) A_GPR = true ->
  Z.land (mCtrlLines c) other_drivers = 0 ->
  gpr c' = Z.land (acc c) 0x0fff /\
  mBusLines c' = acc c /\
  (Z.land (mCtrlLines c) acc_writers = 0 -> acc c' = acc c).
Proof.
  intros H HA H0.
  assert (Hg : asserts (mCtrlLines c) (GPR_M .| GPR_MAR .| GPR_OP .| GPR_PC) = false)
    by (apply (asserts_submask _ _ _ H0); reflexivity).
  assert (Hm : asserts (mCtrlLines c) ram_mOutMask = false)
    by (apply (asserts_submask _ _ _ H0); reflexivity).
  assert (Hw : asserts (mCtrlLines c) ram_mInMask = false)
    by (apply (asserts_submask _ _ _ H0); reflexivity).
  assert (Hl : asserts (mCtrlLines c) (PC_GPR .| A_GPR .| M_GPR) = true)
    by (apply (asserts_supermask _ _ _ HA); reflexivity).
  destruct (phases_Running _ _ H) as (c2 & c3 & H2 & E3 & H4).
  assert (Hd : drive c = acc c) by (unfold drive; now rewrite Hg, HA).
  destruct (Memory_HighLevel_Running _ _ H2) as [[_ E2]|[Hm' _]].
  2:{ destruct c. cbn in Hm'. cbn in Hm. congruence. }
  rewrite Hd in E2.
  destruct (Adder_FallingEdge_frame (GprBus_FallingEdge (count c2)))
    as (Ab & Ac & _).
  destruct (GprBus_FallingEdge_frame (count c2)) as (Gb & Gc & _ & Ga & _).
  rewrite <- E3 in Ab, Ac.
  assert (Eb : mBusLines c3 = acc c) by (rewrite Ab, Gb, E2; now destruct c).
  assert (Ec : mCtrlLines c3 = mCtrlLines c) by (rewrite Ac, Gc, E2; now destruct c).
  destruct (Memory_LowLevel_Running _ _ H4) as [[_ E4]|[Hw' _]].
  2:{ destruct c3. cbn in *. congruence. }
  subst c'. unfold latch. cbn [gpr mBusLines acc]. rewrite Ec, Eb, Hl.
  split; [ reflexivity | ]. split; [ reflexivity | ].
  intros Hq. rewrite E3, Adder_FallingEdge_idle.
  - rewrite Ga. unfold count. cbn [acc].
    replace (mCtrlLines c2) with (mCtrlLines c) by (rewrite E2; now destruct c).
    rewrite (asserts_submask _ _ INCA Hq) by reflexivity.
    rewrite E2. now destruct c.
  - rewrite Gc. replace (mCtrlLines (count c2)) with (mCtrlLines c)
      by (rewrite E2; now destruct c).
    unfold asserts, truthy in *.
    pose proof (asserts_submask _ _ alu_mInMask Hq eq_refl) as Hq'.
    unfold asserts, truthy in Hq'. apply negb_false_iff, Z.eqb_eq in Hq'. exact Hq'.
Qed.

(** C2. In a tick whose control word asserts [A_GPR] and no other drive
    condition, the general-purpose register ends the tick holding the
    accumulator's value, masked to 12 bits: what the latch phase copies
    from the data bus is the accumulator itself, driven in this tick, not
    a stale word.  If the word asserts nothing that writes the
    accumulator, the accumulator still holds that value at the end. *)
Theorem A_GPR_copies_accumulator (c c' : Computer) :
  tick c = Running c' ->
  asserts (mCtrlLines c') A_GPR = true ->
  Z.land (mCtrlLines c') other_drivers = 0 ->
  gpr c' = Z.land (acc c) 0x0fff /\
  mBusLines c' = acc c /\
  (Z.land (mCtrlLines c') acc_writers = 0 ->
   acc c' = acc c /\ gpr c' = Z.land (acc c') 0x0fff).
Proof.
  intros Ht HA H0.
  destruct (tick_Running _ _ Ht) as (w & s & _ & _ & Hp).
  pose proof (phases_ctrl _ _ Hp) as Ec. rewrite Ec in HA, H0 |- *.
  destruct (phases_A_GPR _ _ Hp HA H0) as (Hg & Hb & Ha).
  replace (acc (set_ctrl (set_store sReg s c) w)) with (acc c) in * by now destruct c.
  split; [ exact Hg | ]. split; [ exact Hb | ].
  intros Hq. rewrite (Ha Hq). split; [ reflexivity | exact Hg ].
Qed.

(** STA's second execute step in the built-in program, the 173rd tick:
    the accumulator holds the sum 36 and the tick copies it. *)
Lemma A_GPR_copies_accumulator_witness :
  exists c',
    tick (after 172 (power_on junk0)) = Running c' /\
    mCtrlLines c' = A_GPR /\
    acc (after 172 (power_on junk0)) = 36 /\
    gpr c' = 36 /\ acc c' = 36.
Proof.
  eexists. split; [ vm_compute; reflexivity | ].
  split; [ reflexivity | ]. split; [ reflexivity | ].
  match goal with |- gpr ?c' = _ /\ _ =>
    destruct (A_GPR_copies_accumulator (after 172 (power_on junk0)) c')
      as (Hg & _ & Ha);
      [ vm_compute; reflexivity | reflexivity | reflexivity | ];
    destruct Ha as [Ha _]; [ reflexivity | ];
    split; [ rewrite Hg | rewrite Ha ]; reflexivity
  end.
Defined.

(** ** The microcode subscript *)

(** C3. In every state a run from reset can reach, for any program image:
    with the step counter at most 2 the decode phase reads [mMicrocode]
    at the step counter; otherwise it reads at
    [opcode*8 + haltRedirect + (stepCounter-3)], where [haltRedirect] is
    128 when the opcode is 0 and 0 otherwise, the bitwise OR of the source
    being this sum; [stepCounter-3] lies in [0, 7]; opcode 0 reads in
    128..135; and the subscript lies in [0, 135], inside the 136-entry
    table, so the decode phase never leaves the table. *)
Theorem microcode_index_as_stated (c : Computer) :
  reachable c ->
  let i := microIndex (opr c) (steps c) in
  let opcode := mOpcode (opr c) in
  let haltRedirect := if opcode =? 0 then 128 else 0 in
  (steps c <= 2 -> i = steps c) /\
  (2 < steps c ->
     i = opcode * 8 + haltRedirect + (steps c - 3) /\
     0 <= steps c - 3 <= 7 /\
     (opcode = 0 -> 128 <= i <= 135)) /\
  0 <= i <= 135 /\
  length mMicrocode = 136%nat /\
  (exists w, at_ mMicrocode i = Some w) /\
  forEach RisingEdge c <> OutOfBounds.
Proof.
  intros Hr. cbv zeta.
  pose proof (reachable_in_sequence _ Hr) as Hi.
  pose proof (index_as_stated_always (opr c) (steps c)) as K.
  unfold index_as_stated in K. rewrite Hi in K. cbn [implb] in K.
  rewrite !andb_true_iff in K. destruct K as [[[K1 K2] K3] K4].
  apply Z.leb_le in K2, K3.
  destruct (at_ mMicrocode (microIndex (opr c) (steps c))) as [w|] eqn:Ew;
    [ | discriminate K4 ].
  split; [ | split; [ | split; [ lia | split; [ reflexivity | split; [ eauto | ] ] ] ] ].
  - intros Hle. apply Z.leb_le in Hle. rewrite Hle in K1. now apply Z.eqb_eq.
  - intros Hgt. apply Z.leb_gt in Hgt. rewrite Hgt in K1.
    rewrite !andb_true_iff in K1. destruct K1 as [[[E L] U] Hh].
    apply Z.eqb_eq in E. apply Z.leb_le in L, U.
    split; [ exact E | ]. split; [ lia | ].
    intros H0. apply Z.eqb_eq in H0. rewrite H0 in Hh. cbn [implb] in Hh.
    apply andb_true_iff in Hh. destruct Hh as [Hl Hu].
    apply Z.leb_le in Hl, Hu. lia.
  - rewrite forEach_RisingEdge. unfold Control_RisingEdge.
    cbn [Reg.Get reg store mStore Register_new]. rewrite Ew.
    cbn -[skips]. closed_tests.
    destruct (asserts (skips _ _ w) CLRSC); cbn [andThen];
      [ closed_tests; discriminate | ].
    destruct (asserts _ HLT); discriminate.
Qed.

(** ADDI's fifth execute step in the built-in program, the twelfth tick:
    opcode 10, step counter 7, subscript 84. *)
Lemma microcode_index_as_stated_witness :
  reachable (after 11 (power_on junk0)) /\
  opr (after 11 (power_on junk0)) = 10 /\
  steps (after 11 (power_on junk0)) = 7 /\
  microIndex (opr (after 11 (power_on junk0))) (steps (after 11 (power_on junk0)))
    = 10 * 8 + 0 + (7 - 3).
Proof.
  assert (Hr : reachable (after 11 (power_on junk0))).
  { apply (reachable_after 11 junk0); [ reflexivity | vm_compute; reflexivity ]. }
  split; [ exact Hr | ]. split; [ reflexivity | ]. split; [ reflexivity | ].
  destruct (microcode_index_as_stated _ Hr) as (_ & H & _).
  destruct H as (E & _); [ vm_compute; reflexivity | ].
  rewrite E. reflexivity.
Defined.

(** ** The zero flag *)

(** C4. The compute phase always completes, and when it has, the Z bit
    (bit 1) of the flag register is set exactly when the general-purpose
    register, as the phase leaves it, is zero: whatever the control word
    asserts.  The F bit (bit 0) is the one the phase started with unless
    the adder complemented or cleared F or rotated. *)
Theorem zero_flag_after_compute (c : Computer) :
  exists c',
    forEach FallingEdge c = Running c' /\
    (flagZ c' = true <-> gpr c' = 0) /\
    (let k := Z.land (mCtrlLines c) alu_mInMask in
     k <> COMF -> k <> CLRF -> k <> ROL -> k <> ROR -> flagF c' = flagF c).
Proof.
  rewrite forEach_FallingEdge. eexists. split; [ reflexivity | ].
  set (c2 := GprBus_FallingEdge (count c)).
  destruct (Adder_FallingEdge_zero c2) as [Hg Hz].
  destruct (GprBus_FallingEdge_frame (count c)) as (_ & Hc & _ & _ & Hf & _).
  fold c2 in Hc, Hf. split.
  - rewrite Hz, Hg. apply Z.eqb_eq.
  - cbv zeta. intros n1 n2 n3 n4.
    rewrite Adder_FallingEdge_carry; rewrite ?Hc; try assumption.
    unfold flagF. rewrite Hf. reflexivity.
Qed.

(** The compute phase of [wrapping_gpr]: the register wraps to zero, Z is
    set, and F, here 1, stays. *)
Lemma zero_flag_after_compute_witness :
  exists c',
    forEach FallingEdge wrapping_gpr = Running c' /\ gpr c' = 0 /\
    flagZ c' = true /\ flagF c' = flagF wrapping_gpr.
Proof.
  destruct (zero_flag_after_compute wrapping_gpr) as (c' & Hrun & Hz & Hf).
  exists c'. split; [ exact Hrun | ].
  assert (Hg : gpr c' = 0) by (vm_compute in Hrun; injection Hrun as <-; reflexivity).
  split; [ exact Hg | ].
  split; [ apply Hz, Hg | ].
  apply Hf; vm_compute; discriminate.
Defined.

(** ** Rotation through the carry *)

Lemma truthy_bit0 x : truthy (Z.land x 0x0001) = Z.testbit x 0.
Proof.
  unfold truthy. change 0x0001 with (Z.ones 1).
  rewrite Z.land_ones by lia. change (2 ^ 1) with 2.
  rewrite <- Z.bit0_mod. now destruct (Z.testbit x 0).
Qed.

(** The accumulator and the carry after a rotation, from the accumulator
    and the carry before it. *)
Lemma clock_ROL c :
  exists c1,
    clock ROL c = Running c1 /\
    acc c1 = Z.land (Z.land (Z.shiftl (acc c) 1) 0x0fff .| Z.b2z (flagF c)) 0x0fff /\
    flagF c1 = truthy (Z.land (acc c) 0x0800).
Proof.
  destruct c as [bus ctrl s p a g f o m al r].
  unfold clock, phases. rewrite forEach_HighLevel.
  unfold drive, Memory_HighLevel. cbn. closed_tests. cbn [andThen].
  rewrite forEach_FallingEdge. cbn [andThen]. rewrite forEach_LowLevel.
  match goal with |- context [GprBus_FallingEdge ?x] =>
    assert (EG : GprBus_FallingEdge x =
                 mkComputer bus ROL (Z.land (s + 1) 0x000f) p a g f o m
                   (mkAdder (mNextFlag al) (mFlagF al) (Z.land (a + g) 0x0fff)) r)
      by (unfold GprBus_FallingEdge, count, Adder_HighLevel; cbn; closed_tests;
          reflexivity);
    rewrite EG; clear EG
  end.
  unfold Adder_FallingEdge.
  match goal with |- context [Adder_operate ?x] =>
    assert (Ec : mCtrlLines x = ROL) by (rewrite Adder_flags_eq; reflexivity);
    destruct (Adder_operate_cases x) as [E|E|E|E|E|E|E|E];
      try (rewrite Ec in E; discriminate E)
  end.
  { exfalso. apply (E ROL); [ cbn; auto 10 | rewrite Ec; reflexivity ]. }
  rewrite Adder_flags_eq. unfold RolAcc, carryOut, Memory_LowLevel, latch, flagF.
  cbn -[Z.testbit]. closed_tests. rewrite truthy_bit0.
  destruct (truthy (Z.land a 2048)); cbn -[Z.testbit]; closed_tests;
    (eexists; split; [ reflexivity | ]); cbn -[Z.testbit];
    repeat rewrite <- Z.bit0_odd;
    (split; [ now destruct (Z.testbit f 0) | destruct (truthy g); bits ]).
Qed.

Lemma clock_ROR c :
  exists c1,
    clock ROR c = Running c1 /\
    acc c1 = Z.land (Z.land (Z.shiftr (acc c) 1) 0x0fff
                     .| (if flagF c then 0x0800 else 0x0000)) 0x0fff /\
    flagF c1 = truthy (Z.land (acc c) 0x0001).
Proof.
  destruct c as [bus ctrl s p a g f o m al r].
  unfold clock, phases. rewrite forEach_HighLevel.
  unfold drive, Memory_HighLevel. cbn. closed_tests. cbn [andThen].
  rewrite forEach_FallingEdge. cbn [andThen]. rewrite forEach_LowLevel.
  match goal with |- context [GprBus_FallingEdge ?x] =>
    assert (EG : GprBus_FallingEdge x =
                 mkComputer bus ROR (Z.land (s + 1) 0x000f) p a g f o m
                   (mkAdder (mNextFlag al) (mFlagF al) (Z.land (a + g) 0x0fff)) r)
      by (unfold GprBus_FallingEdge, count, Adder_HighLevel; cbn; closed_tests;
          reflexivity);
    rewrite EG; clear EG
  end.
  unfold Adder_FallingEdge.
  match goal with |- context [Adder_operate ?x] =>
    assert (Ec : mCtrlLines x = ROR) by (rewrite Adder_flags_eq; reflexivity);
    destruct (Adder_operate_cases x) as [E|E|E|E|E|E|E|E];
      try (rewrite Ec in E; discriminate E)
  end.
  { exfalso. apply (E ROR); [ cbn; auto 10 | rewrite Ec; reflexivity ]. }
  rewrite Adder_flags_eq. unfold RorAcc, carryOut, Memory_LowLevel, latch, flagF.
  cbn -[Z.testbit]. closed_tests. rewrite !truthy_bit0.
  destruct (Z.testbit a 0); cbn -[Z.testbit]; closed_tests;
    (eexists; split; [ reflexivity | ]); cbn -[Z.testbit];
    repeat rewrite <- Z.bit0_odd;
    (split; [ destruct (Z.testbit f 0); cbn; closed_tests; reflexivity
            | destruct (truthy g); bits ]).
Qed.

(** Checked on all 4096 x 2 accumulator values and carries. *)
Lemma rotations_undo_always a f : 0 <= a < 4096 -> rotations_undo a f = true.
Proof.
  intros Ha.
  assert (H : forallb (fun a => rotations_undo a false && rotations_undo a true)
                (Zupto 4096) = true) by (vm_compute; reflexivity).
  pose proof (Zupto_spec _ _ H a Ha) as K. cbv beta in K.
  apply andb_true_iff in K. destruct f; tauto.
Qed.

(** C5. For every 12-bit accumulator value and either carry: a
    rotate-left tick and then a rotate-right tick, the accumulator and F
    being the same at the start of the second as at the end of the first,
    leave the accumulator and F as they were before the first; and the
    same with the two rotations exchanged.  Both ticks always complete. *)
Theorem rotate_round_trip (c : Computer) :
  0 <= acc c < 4096 ->
  (exists c1,
     clock ROL c = Running c1 /\
     forall d, acc d = acc c1 -> flagF d = flagF c1 ->
       exists c2, clock ROR d = Running c2 /\ acc c2 = acc c /\ flagF c2 = flagF c) /\
  (exists c1,
     clock ROR c = Running c1 /\
     forall d, acc d = acc c1 -> flagF d = flagF c1 ->
       exists c2, clock ROL d = Running c2 /\ acc c2 = acc c /\ flagF c2 = flagF c).
Proof.
  intros Ha.
  pose proof (rotations_undo_always (acc c) (flagF c) Ha) as K.
  unfold rotations_undo in K. rewrite !andb_true_iff in K.
  destruct K as [[[K1 K2] K3] K4].
  apply Z.eqb_eq in K1, K3. apply eqb_prop in K2, K4.
  split.
  - destruct (clock_ROL c) as (c1 & H1 & A1 & F1).
    exists c1. split; [ exact H1 | ]. intros d Ea Ef.
    destruct (clock_ROR d) as (c2 & H2 & A2 & F2).
    exists c2. split; [ exact H2 | ].
    rewrite A2, F2, Ea, Ef, A1, F1. split; [ exact K1 | exact K2 ].
  - destruct (clock_ROR c) as (c1 & H1 & A1 & F1).
    exists c1. split; [ exact H1 | ]. intros d Ea Ef.
    destruct (clock_ROL d) as (c2 & H2 & A2 & F2).
    exists c2. split; [ exact H2 | ].
    rewrite A2, F2, Ea, Ef, A1, F1. split; [ exact K3 | exact K4 ].
Qed.

(** [rotating], whose accumulator is 0xABC with F set: rotated left it is
    0x579 with F set, and rotated right again it is 0xABC with F set. *)
Lemma rotate_round_trip_witness :
  exists c1 c2,
    clock ROL rotating = Running c1 /\
    acc c1 = 0x0579 /\ flagF c1 = true /\
    clock ROR c1 = Running c2 /\ acc c2 = 0x0ABC /\ flagF c2 = true.
Proof.
  destruct (rotate_round_trip rotating)
    as [(c1 & H1 & K) _]; [ cbn; lia | ].
  destruct (K c1 eq_refl eq_refl) as (c2 & H2 & A2 & F2).
  exists c1, c2. split; [ exact H1 | ].
  vm_compute in H1. injection H1 as <-.
  split; [ reflexivity | ]. split; [ reflexivity | ].
  split; [ exact H2 | ]. split; [ exact A2 | exact F2 ].
Defined.

(** ** The step counter *)

(** The conditional skips only add [INCPC]. *)
Lemma skips_CLRSC f z w : asserts (skips f z w) CLRSC = asserts w CLRSC.
Proof.
  assert (H : forall x, asserts (x .| INCPC) CLRSC = asserts x CLRSC).
  { intros x. unfold asserts. rewrite Z.land_lor_distr_l.
    change (Z.land INCPC CLRSC) with 0. now rewrite Z.lor_0_r. }
  unfold skips.
  destruct (asserts w INCPCF), (negb f); rewrite ?H;
    match goal with |- context [if ?b then _ else _] => destruct b end;
    destruct z; rewrite ?H; reflexivity.
Qed.

(** The tick under the first fetch entry always completes and counts the
    step counter up by one. *)
Lemma phases_PC_MAR c :
  mCtrlLines c = PC_MAR ->
  exists c', phases c = Running c' /\ steps c' = Z.land (steps c + 1) 0x000f.
Proof.
  destruct c as [bus ctrl s p a g f o m al r]. cbn [mCtrlLines]. intros ->.
  unfold phases. rewrite forEach_HighLevel.
  unfold drive, Memory_HighLevel. cbn. closed_tests. cbn [andThen].
  rewrite forEach_FallingEdge. cbn [andThen]. rewrite forEach_LowLevel.
  match goal with |- context [Adder_FallingEdge ?x] =>
    destruct (Adder_FallingEdge_frame x) as (_ & Ac & As & _);
    destruct (GprBus_FallingEdge_frame (count
      (Adder_HighLevel (set_bus (mkComputer bus PC_MAR s p a g f o m al r) p))))
      as (_ & Gc & Gs & _);
    set (c3 := Adder_FallingEdge x) in *
  end.
  cbn in Gc, Gs. rewrite Gc in Ac. rewrite Gs in As.
  unfold Memory_LowLevel. replace (mCtrlLines (latch c3)) with PC_MAR
    by (now destruct c3).
  closed_tests. eexists. split; [ reflexivity | ].
  replace (steps (latch c3)) with (steps c3) by now destruct c3.
  exact As.
Qed.

(** C6, as the code has it.  In every state a run from reset can reach,
    for any program image, the step counter lies in [0, 10]: during
    execute, [stepCounter-3] lies in [0, 7].  When the word the decode
    phase reads asserts [CLRSC], the decode phase resets the step counter
    to zero at once and publishes the first fetch entry in place of that
    word; the tick then completes, and since the step counter counts in
    the compute phase of that same tick, it is 1, not 0, when the tick
    ends: the next tick decodes the second fetch entry. *)
Theorem step_counter_sequencing (c : Computer) :
  reachable c ->
  0 <= steps c <= 10 /\
  (2 < steps c -> 0 <= steps c - 3 <= 7) /\
  forall w,
    at_ mMicrocode (microIndex (opr c) (steps c)) = Some w ->
    asserts w CLRSC = true ->
    exists c1 c',
      forEach RisingEdge c = Running c1 /\
      steps c1 = 0 /\
      at_ mMicrocode 0 = Some (mCtrlLines c1) /\
      tick c = Running c' /\
      steps c' = 1 /\
      microIndex (opr c') (steps c') = 1.
Proof.
  intros Hr.
  pose proof (reachable_in_sequence _ Hr) as Hi.
  pose proof (index_as_stated_always (opr c) (steps c)) as K.
  unfold index_as_stated in K. rewrite Hi in K. cbn [implb] in K.
  destruct (in_sequence_range _ _ Hi) as [_ Hs].
  assert (Hb : steps c <= 2 \/ (2 < steps c /\ steps c - 3 <= 7)).
  { destruct (Z.leb_spec (steps c) 2) as [L|G]; [ now left | right ].
    rewrite !andb_true_iff in K. destruct K as [[[K1 _] _] _].
    destruct K1 as [[[_ _] U] _]. apply Z.leb_le in U. lia. }
  split; [ lia | ]. split; [ lia | ].
  intros w Ew Ha.
  assert (E1 : forEach RisingEdge c = Running (set_ctrl (regReset sReg c) PC_MAR)).
  { rewrite forEach_RisingEdge. unfold Control_RisingEdge.
    cbn [Reg.Get reg store mStore Register_new]. rewrite Ew.
    cbn -[skips asserts at_ mMicrocode regReset].
    rewrite skips_CLRSC, Ha.
    change (at_ mMicrocode 0) with (Some PC_MAR). cbn [andThen].
    replace (mCtrlLines (set_ctrl _ PC_MAR)) with PC_MAR by reflexivity.
    closed_tests. reflexivity. }
  destruct (phases_PC_MAR (set_ctrl (regReset sReg c) PC_MAR)) as (c' & Hp & Hs');
    [ now destruct c | ].
  replace (steps (set_ctrl (regReset sReg c) PC_MAR)) with 0 in Hs' by now destruct c.
  change (Z.land (0 + 1) 15) with 1 in Hs'.
  exists (set_ctrl (regReset sReg c) PC_MAR), c'.
  split; [ exact E1 | ]. split; [ now destruct c | ].
  split; [ now destruct c | ].
  split; [ unfold tick; rewrite E1; exact Hp | ].
  split; [ exact Hs' | ]. rewrite Hs'. reflexivity.
Qed.

(** CRA's second execute step in the built-in program, the fifth tick
    after reset: the word read is [CLRSC], and the tick ends with the
    step counter at 1. *)
Lemma step_counter_sequencing_witness :
  reachable (after 4 (power_on junk0)) /\
  at_ mMicrocode (microIndex (opr (after 4 (power_on junk0)))
                             (steps (after 4 (power_on junk0)))) = Some CLRSC /\
  exists c', tick (after 4 (power_on junk0)) = Running c' /\ steps c' = 1.
Proof.
  assert (Hr : reachable (after 4 (power_on junk0))).
  { apply (reachable_after 4 junk0); [ reflexivity | vm_compute; reflexivity ]. }
  split; [ exact Hr | ]. split; [ reflexivity | ].
  destruct (step_counter_sequencing _ Hr) as (_ & _ & Hc).
  destruct (Hc CLRSC eq_refl eq_refl) as (c1 & c' & _ & _ & _ & Ht & Hs & _).
  exists c'. split; [ exact Ht | exact Hs ].
Defined.

(** C6, as stated, fails: at that same tick the word read asserts
    [CLRSC], yet one tick later the step counter is 1, not 0. *)
Lemma step_counter_not_zero_after_clear :
  ~ (forall c c' w,
       reachable c ->
       at_ mMicrocode (microIndex (opr c) (steps c)) = Some w ->
       asserts w CLRSC = true ->
       tick c = Running c' ->
       steps c' = 0).
Proof.
  intros H.
  assert (Hr : reachable (after 4 (power_on junk0))).
  { apply (reachable_after 4 junk0); [ reflexivity | vm_compute; reflexivity ]. }
  assert (Ht : exists c', tick (after 4 (power_on junk0)) = Running c' /\ steps c' = 1).
  { eexists. split; vm_compute; reflexivity. }
  destruct Ht as (c' & Ht & Hs).
  specialize (H _ c' CLRSC Hr eq_refl eq_refl Ht). rewrite Hs in H. discriminate H.
Qed.

(** ** Memory bounds *)

Lemma land_255_range x : 0 <= Z.land x 0x00ff < 256.
Proof.
  change 0x00ff with (Z.ones 8). rewrite Z.land_ones by lia.
  apply Z.mod_pos_bound. reflexivity.
Qed.

(** C7. The mask of the memory address register is 0x00ff, the memory
    has 128 cells, and the two do not agree: from reset with [ADD 80] in
    cell 0, four ticks leave the memory address register at 128, inside
    its width, with every register inside its width and the memory at
    its 128 cells; the fifth tick reads [M_GPR] from the table, and
    [Memory::HighLevel] indexes [mStore[128]], outside the array.  A
    register masked with 0x00ff can hold any of 0..255. *)
Theorem memory_read_out_of_bounds :
  reachable (after 4 (power_on_with prg_add_0x80 junk0)) /\
  run 4 (power_on_with prg_add_0x80 junk0)
    = Running (after 4 (power_on_with prg_add_0x80 junk0)) /\
  (forall r, Reg.in_width (reg r (after 4 (power_on_with prg_add_0x80 junk0)))) /\
  mar (after 4 (power_on_with prg_add_0x80 junk0)) = 128 /\
  length (ram (after 4 (power_on_with prg_add_0x80 junk0))) = 128%nat /\
  at_ mMicrocode (microIndex (opr (after 4 (power_on_with prg_add_0x80 junk0)))
                             (steps (after 4 (power_on_with prg_add_0x80 junk0))))
    = Some M_GPR /\
  at_ (ram (after 4 (power_on_with prg_add_0x80 junk0))) 128 = None /\
  tick (after 4 (power_on_with prg_add_0x80 junk0)) = OutOfBounds /\
  run 5 (power_on_with prg_add_0x80 junk0) = OutOfBounds /\
  (forall x, 0 <= Z.land x (mBitMask (reg marReg junk0)) < 256).
Proof.
  split.
  { apply (run_reachable 4 (power_on_with prg_add_0x80 junk0)).
    - unfold power_on_with. apply reachable_Reset. reflexivity.
    - vm_compute. reflexivity. }
  split; [ vm_compute; reflexivity | ].
  split; [ intros r; destruct r; vm_compute; reflexivity | ].
  split; [ vm_compute; reflexivity | ].
  split; [ vm_compute; reflexivity | ].
  split; [ vm_compute; reflexivity | ].
  split; [ vm_compute; reflexivity | ].
  split; [ vm_compute; reflexivity | ].
  split; [ vm_compute; reflexivity | ].
  intros x. apply land_255_range.
Qed.

(** ** Program counter and general-purpose register *)

Lemma sequencer_emitted o s f z w s' :
  sequencer o s f z = Some (w, s') -> In w emitted.
Proof.
  unfold sequencer, at_.
  destruct (0 <=? microIndex o s); [ | discriminate ].
  destruct (mMicrocode !! Z.to_nat (microIndex o s)) as [w0|] eqn:E; [ | discriminate ].
  apply list_elem_of_lookup_2, list_elem_of_In in E.
  destruct (asserts (skips f z w0) CLRSC).
  - closed_tests. intros [= <- _]. now left.
  - destruct (asserts (skips f z w0) HLT); [ discriminate | ].
    intros [= <- _]. right. apply in_flat_map. exists w0. split; [ exact E | ].
    destruct f, z; cbn; auto.
Qed.

(** Among the words the control unit publishes, only [PC_GPR] itself
    asserts [PC_GPR]. *)
Lemma emitted_PC_GPR w : In w emitted -> asserts w PC_GPR = true -> w = PC_GPR.
Proof.
  intros Hin Ha.
  assert (H : forallb (fun w => implb (asserts w PC_GPR) (w =? PC_GPR)) emitted = true)
    by (vm_compute; reflexivity).
  rewrite forallb_forall in H. specialize (H w Hin).
  rewrite Ha in H. now apply Z.eqb_eq.
Qed.

(** The transfer unit does not read the data bus. *)
Lemma GprBus_FallingEdge_set_bus c v :
  GprBus_FallingEdge (set_bus c v) = set_bus (GprBus_FallingEdge c) v.
Proof.
  destruct c as [bus ctrl s p a g f o m al r].
  unfold GprBus_FallingEdge. cbn.
  destruct (truthy _); [ | reflexivity ].
  destruct (_ =? PC_GPR), (_ =? GPR_OP); reflexivity.
Qed.

(** The three phases under the word [PC_GPR]. *)
Lemma phases_PC_GPR c c' :
  mCtrlLines c = PC_GPR ->
  phases c = Running c' ->
  pc c' = Z.land (gpr c) 0x00ff /\
  gpr c' = Z.land (pc c) 0x0fff /\
  exists c2,
    forEach HighLevel c = Running c2 /\
    pc (GprBus_FallingEdge (count c2)) = Z.land (gpr c) 0x00ff /\
    gpr (GprBus_FallingEdge (count c2)) = Z.land (pc c) 0x00ff.
Proof.
  destruct c as [bus ctrl s p a g f o m al r]. cbn [mCtrlLines]. intros ->.
  unfold phases. rewrite forEach_HighLevel.
  unfold drive, Memory_HighLevel. cbn. closed_tests. cbn [andThen].
  rewrite forEach_FallingEdge. cbn [andThen]. rewrite forEach_LowLevel.
  assert (E8 : Z.land (Z.land g 0x00ff) 0x00ff = Z.land g 0x00ff)
    by (now rewrite <- Z.land_assoc, Z.land_diag).
  assert (E12 : Z.land (Z.land p 0x00ff) 0x0fff = Z.land p 0x00ff)
    by (now rewrite <- Z.land_assoc).
  match goal with |- context [GprBus_FallingEdge ?x] =>
    assert (EG : GprBus_FallingEdge x =
                 mkComputer p PC_GPR (Z.land (s + 1) 0x000f)
                   (Z.land (Z.land g 0x00ff) 0x00ff) a
                   (Z.land (Z.land p 0x00ff) 0x0fff) f o m
                   (mkAdder (mNextFlag al) (mFlagF al) (Z.land (a + g) 0x0fff)) r)
      by (unfold GprBus_FallingEdge, count, Adder_HighLevel; cbn; closed_tests;
          reflexivity);
    rewrite EG
  end.
  match goal with |- context [Adder_FallingEdge ?x] =>
    destruct (Adder_FallingEdge_frame x) as (Ab & Ac & _ & Ap & Ag & _);
    set (c3 := Adder_FallingEdge x) in *
  end.
  cbn in Ab, Ac, Ap, Ag.
  unfold Memory_LowLevel, latch. cbn [mCtrlLines]. rewrite Ac, Ab, Ap, Ag.
  closed_tests. intros [= <-]. cbn [pc gpr].
  split; [ exact E8 | ]. split; [ reflexivity | ].
  eexists. split; [ reflexivity | ]. rewrite EG. cbn [pc gpr]. split; assumption.
Qed.

(** C8. In a tick whose control word asserts [PC_GPR], the program
    counter ends holding the low 8 bits the general-purpose register had,
    and the low 8 bits of the general-purpose register are those the
    program counter had (the program counter's whole value, since it is 8
    bits wide).  The exchange is made by the transfer unit in the compute
    phase, register to register: it is complete before the latch phase
    and the transfer unit's result does not depend on the data bus. *)
Theorem PC_GPR_exchanges_low_bytes (c c' : Computer) :
  tick c = Running c' ->
  asserts (mCtrlLines c') PC_GPR = true ->
  pc c' = Z.land (gpr c) 0x00ff /\
  Z.land (gpr c') 0x00ff = Z.land (pc c) 0x00ff /\
  (Reg.in_width (reg pcReg c) -> Z.land (gpr c') 0x00ff = pc c) /\
  (exists c2,
     andThen (forEach RisingEdge c) (forEach HighLevel) = Running c2 /\
     pc (GprBus_FallingEdge (count c2)) = Z.land (gpr c) 0x00ff /\
     gpr (GprBus_FallingEdge (count c2)) = Z.land (pc c) 0x00ff /\
     forall v, GprBus_FallingEdge (set_bus (count c2) v)
               = set_bus (GprBus_FallingEdge (count c2)) v).
Proof.
  intros Ht Ha.
  destruct (tick_Running _ _ Ht) as (w & s & Hs & Hr & Hp).
  pose proof (phases_ctrl _ _ Hp) as Ec.
  replace (mCtrlLines (set_ctrl (set_store sReg s c) w)) with w in Ec by now destruct c.
  rewrite Ec in Ha.
  rewrite (emitted_PC_GPR w (sequencer_emitted _ _ _ _ _ _ Hs) Ha) in *.
  assert (Hcw : mCtrlLines (set_ctrl (set_store sReg s c) PC_GPR) = PC_GPR)
    by now destruct c.
  destruct (phases_PC_GPR _ _ Hcw Hp) as (Hpc & Hg & c2 & Hh & Hpc3 & Hg3).
  replace (gpr (set_ctrl (set_store sReg s c) PC_GPR)) with (gpr c) in * by now destruct c.
  replace (pc (set_ctrl (set_store sReg s c) PC_GPR)) with (pc c) in * by now destruct c.
  assert (Hlow : Z.land (gpr c') 0x00ff = Z.land (pc c) 0x00ff)
    by (rewrite Hg; now rewrite <- Z.land_assoc).
  split; [ exact Hpc | ]. split; [ exact Hlow | ].
  split; [ intros Hw; unfold Reg.in_width in Hw; cbn in Hw; now rewrite Hlow | ].
  exists c2. rewrite Hr. cbn [andThen].
  split; [ exact Hh | ]. split; [ exact Hpc3 | ]. split; [ exact Hg3 | ].
  intros v. apply GprBus_FallingEdge_set_bus.
Qed.

(** CSR's second execute step, the fifth tick of the program [CSR 20]:
    the program counter holds 1 and the general-purpose register 0xE20;
    the tick leaves 0x20 and 1. *)
Lemma PC_GPR_exchanges_low_bytes_witness :
  exists c',
    tick (after 4 (power_on_with prg_csr_0x20 junk0)) = Running c' /\
    pc (after 4 (power_on_with prg_csr_0x20 junk0)) = 1 /\
    gpr (after 4 (power_on_with prg_csr_0x20 junk0)) = 0x0E20 /\
    pc c' = 0x20 /\ Z.land (gpr c') 0x00ff = 1.
Proof.
  eexists. split; [ vm_compute; reflexivity | ].
  split; [ reflexivity | ]. split; [ reflexivity | ].
  match goal with |- pc ?c' = _ /\ _ =>
    destruct (PC_GPR_exchanges_low_bytes
                (after 4 (power_on_with prg_csr_0x20 junk0)) c')
      as (Hp & _ & Hg & _);
      [ vm_compute; reflexivity | reflexivity | ];
    split; [ rewrite Hp; reflexivity | rewrite Hg; reflexivity ]
  end.
Defined.

(** ** Halt *)

(** In the table only [HLT] itself asserts [HLT]. *)
Lemma microcode_HLT i w :
  at_ mMicrocode i = Some w -> asserts w HLT = true -> w = HLT.
Proof.
  unfold at_. destruct (0 <=? i); [ | discriminate ].
  intros E Ha. apply list_elem_of_lookup_2, list_elem_of_In in E.
  assert (H : forallb (fun w => implb (asserts w HLT) (w =? HLT)) mMicrocode = true)
    by (vm_compute; reflexivity).
  rewrite forallb_forall in H. specialize (H w E).
  rewrite Ha in H. now apply Z.eqb_eq.
Qed.

(** C9. When the word the decode phase reads asserts the halt bit, the
    tick exits in the decode phase: the machine it leaves differs from
    the one it found only in the control bus, which holds the halt word.
    No register, memory cell or data-bus value changes, none of the
    three later phases runs, and a run of any length stops at that tick
    with that machine. *)
Theorem halt_is_terminal (c : Computer) (w : Z) :
  at_ mMicrocode (microIndex (opr c) (steps c)) = Some w ->
  asserts w HLT = true ->
  tick c = Exited (set_ctrl c w) /\
  (forall n, run (S n) c = Exited (set_ctrl c w)) /\
  (forall r, store r (set_ctrl c w) = store r c) /\
  ram (set_ctrl c w) = ram c /\
  mBusLines (set_ctrl c w) = mBusLines c /\
  alu (set_ctrl c w) = alu c.
Proof.
  intros Ew Ha.
  pose proof (microcode_HLT _ _ Ew Ha) as ->.
  assert (Ht : tick c = Exited (set_ctrl c HLT)).
  { unfold tick. rewrite forEach_RisingEdge. unfold Control_RisingEdge.
    cbn [Reg.Get reg store mStore Register_new]. rewrite Ew.
    unfold skips. closed_tests. cbn -[asserts]. closed_tests. reflexivity. }
  split; [ exact Ht | ].
  split; [ intros n; cbn [run]; now rewrite Ht | ].
  split; [ intros r; now destruct r, c | ].
  now destruct c.
Qed.

(** The last tick of the built-in program: the word read is [HLT], the
    tick exits, and the machine is the one the tick found, the result 36
    still in cell 7. *)
Lemma halt_is_terminal_witness :
  tick (after 177 (power_on junk0))
    = Exited (set_ctrl (after 177 (power_on junk0)) HLT) /\
  run 100 (after 177 (power_on junk0))
    = Exited (set_ctrl (after 177 (power_on junk0)) HLT) /\
  ram (set_ctrl (after 177 (power_on junk0)) HLT) !! 7%nat = Some 36.
Proof.
  destruct (halt_is_terminal (after 177 (power_on junk0)) HLT)
    as (Ht & Hn & _); [ vm_compute; reflexivity | reflexivity | ].
  split; [ exact Ht | ]. split; [ exact (Hn 99%nat) | ].
  vm_compute. reflexivity.
Defined.

(** ** Register widths *)

Lemma in_width_Reset r : Reg.in_width (Reg.Reset r).
Proof. unfold Reg.in_width. cbn. apply Z.land_0_l. Qed.

Lemma in_width_Set r data : Reg.in_width (Reg.Set_ r data).
Proof.
  unfold Reg.in_width. cbn. now rewrite <- Z.land_assoc, Z.land_diag.
Qed.

Lemma in_width_Increment r : Reg.in_width (Reg.Increment r).
Proof.
  unfold Reg.in_width. cbn. now rewrite <- Z.land_assoc, Z.land_diag.
Qed.

Lemma in_width_FallingEdge ctrl r :
  Reg.in_width r -> Reg.in_width (Reg.FallingEdge ctrl r).
Proof.
  intros H. unfold Reg.FallingEdge.
  destruct (_ || _); [ apply in_width_Increment | exact H ].
Qed.

Lemma in_width_LowLevel ctrl bus r :
  Reg.in_width r -> Reg.in_width (Reg.LowLevel ctrl bus r).
Proof.
  intros H. unfold Reg.LowLevel.
  destruct (asserts _ _); [ | exact H ].
  unfold Reg.in_width. cbn. now rewrite <- Z.land_assoc, Z.land_diag.
Qed.

Lemma in_width_applyOp r o : Reg.in_width r -> Reg.in_width (applyOp r o).
Proof.
  intros H. destruct o; cbn [applyOp];
    auto using in_width_Reset, in_width_Set, in_width_Increment,
               in_width_FallingEdge, in_width_LowLevel.
Qed.

Lemma in_width_fold ops : forall r,
  Reg.in_width r -> Reg.in_width (fold_left applyOp ops r).
Proof.
  induction ops as [|o ops IH]; intros r H; cbn [fold_left]; [ exact H | ].
  apply IH, in_width_applyOp, H.
Qed.

(** C10. Whatever masks a register was built with: after [Reset], and
    after any sequence of [Reset], [HighLevel], [FallingEdge], [LowLevel],
    [Set] and [Increment] calls that follows it, the stored value [v]
    satisfies [v & mBitMask == v]; each single [Set], [Increment] and
    [Reset] establishes this by itself; and so the value the register
    puts on the data bus when its drive condition holds is inside its
    width, although [HighLevel] applies no mask. *)
Theorem register_width_invariant (r : Register) (ops : list RegOp) :
  let r' := history r ops in
  Reg.in_width r' /\
  Reg.in_width (Reg.Reset r) /\
  (forall data, Reg.in_width (Reg.Set_ r data)) /\
  Reg.in_width (Reg.Increment r) /\
  (forall ctrl bus,
     asserts ctrl (mOutMask r') = true ->
     Reg.HighLevel ctrl bus r' = mStore r' /\
     Z.land (Reg.HighLevel ctrl bus r') (mBitMask r') = Reg.HighLevel ctrl bus r').
Proof.
  cbv zeta.
  assert (H : Reg.in_width (history r ops))
    by (apply in_width_fold, in_width_Reset).
  split; [ exact H | ].
  split; [ apply in_width_Reset | ].
  split; [ intros; apply in_width_Set | ].
  split; [ apply in_width_Increment | ].
  intros ctrl bus Hd. unfold Reg.HighLevel. rewrite Hd. split; [ reflexivity | exact H ].
Qed.

(** The same for [stale_pc]: a bus word of 16 bits is cut to 8 on the
    latch, the increment wraps, and the driven value is the stored one. *)
Lemma register_width_invariant_witness :
  mStore (history stale_pc [OpLowLevel GPR_PC 0xABFF; OpFallingEdge INCPC; OpSet 0x1234]) = 0x34 /\
  Reg.in_width (history stale_pc [OpLowLevel GPR_PC 0xABFF; OpFallingEdge INCPC; OpSet 0x1234]) /\
  Reg.HighLevel PC_MAR 0xFFFF
    (history stale_pc [OpLowLevel GPR_PC 0xABFF; OpFallingEdge INCPC; OpSet 0x1234]) = 0x34.
Proof.
  pose proof (register_width_invariant stale_pc
                [OpLowLevel GPR_PC 0xABFF; OpFallingEdge INCPC; OpSet 0x1234])
    as (Hw & _ & _ & _ & Hd).
  split; [ reflexivity | ].
  split; [ exact Hw | ].
  destruct (Hd PC_MAR 0xFFFF) as [-> _]; reflexivity.
Defined.

(** * Beyond the claims *)

(** ** Widths and memory size along a run *)

Lemma in_width_range (v k : Z) :
  0 <= k -> Z.land v (Z.ones k) = v -> 0 <= v < 2 ^ k.
Proof.
  intros Hk H. rewrite Z.land_ones in H by exact Hk. rewrite <- H.
  apply Z.mod_pos_bound. apply Z.pow_pos_nonneg; lia.
Qed.

Lemma land_idem v m : Z.land (Z.land v m) m = Z.land v m.
Proof. now rewrite <- Z.land_assoc, Z.land_diag. Qed.

Lemma widths_intro c :
  Z.land (steps c) 0x000f = steps c -> Z.land (pc c) 0x00ff = pc c ->
  Z.land (acc c) 0x0fff = acc c -> Z.land (gpr c) 0x0fff = gpr c ->
  Z.land (flg c) 0x0003 = flg c -> Z.land (opr c) 0x000f = opr c ->
  Z.land (mar c) 0x00ff = mar c -> widths c.
Proof. intros ? ? ? ? ? ? ? n. destruct n; assumption. Qed.

Lemma widths_elim c :
  widths c ->
  Z.land (steps c) 0x000f = steps c /\ Z.land (pc c) 0x00ff = pc c /\
  Z.land (acc c) 0x0fff = acc c /\ Z.land (gpr c) 0x0fff = gpr c /\
  Z.land (flg c) 0x0003 = flg c /\ Z.land (opr c) 0x000f = opr c /\
  Z.land (mar c) 0x00ff = mar c.
Proof.
  intros H. exact (conj (H sReg) (conj (H pcReg) (conj (H accReg)
    (conj (H gprReg) (conj (H flgReg) (conj (H oprReg) (H marReg))))))).
Qed.

Lemma count_widths c : widths c -> widths (count c).
Proof.
  intros H. destruct (widths_elim _ H) as (Hs & Hp & Ha & Hg & Hf & Ho & Hm).
  apply widths_intro; unfold count; cbn [steps pc acc gpr flg opr mar];
    try assumption; try apply land_idem;
    match goal with |- context [if ?b then _ else _] => destruct b end;
    try assumption; apply land_idem.
Qed.

Lemma GprBus_FallingEdge_widths c : widths c -> widths (GprBus_FallingEdge c).
Proof.
  intros H. destruct (widths_elim _ H) as (Hs & Hp & Ha & Hg & Hf & Ho & Hm).
  destruct (GprBus_FallingEdge_cases c); [ exact H | | ];
    destruct c; apply widths_intro; cbn in *; try assumption; apply land_idem.
Qed.

Lemma Adder_FallingEdge_widths c : widths c -> widths (Adder_FallingEdge c).
Proof.
  intros H. destruct (widths_elim _ H) as (Hs & Hp & Ha & Hg & Hf & Ho & Hm).
  unfold Adder_FallingEdge.
  destruct (Adder_operate_cases (Adder_flags c)) as [_|_|_|_|_|_|_|_];
    rewrite Adder_flags_eq;
    destruct c as [bus ctrl s p a g f o m al r];
    unfold RolAcc, RorAcc, carryOut; cbn in *; unfold truthy;
    repeat match goal with
    | |- context [if negb (?x =? 0) then _ else _] => destruct (x =? 0); cbn [negb]
    end; cbn;
    apply widths_intro; cbn; try assumption; try apply land_idem; reflexivity.
Qed.

Lemma latch_widths c : widths c -> widths (latch c).
Proof.
  intros H. destruct (widths_elim _ H) as (Hs & Hp & Ha & Hg & Hf & Ho & Hm).
  apply widths_intro; unfold latch; cbn [steps pc acc gpr flg opr mar];
    try assumption;
    match goal with |- context [if ?b then _ else _] => destruct b end;
    try assumption; apply land_idem.
Qed.

Lemma phases_widths c c' :
  phases c = Running c' ->
  widths c -> length (ram c) = 128%nat ->
  widths c' /\ length (ram c') = 128%nat.
Proof.
  intros H Hw Hl. destruct (phases_Running _ _ H) as (c2 & c3 & H2 & E3 & H4).
  assert (W2 : widths c2 /\ ram c2 = ram c).
  { destruct (Memory_HighLevel_Running _ _ H2) as [[_ ->]|[_ (w & _ & ->)]];
      (split; [ | now destruct c ]); intros n; specialize (Hw n);
      destruct n, c; exact Hw. }
  destruct W2 as [W2 R2].
  assert (W3 : widths c3)
    by (subst c3; apply Adder_FallingEdge_widths, GprBus_FallingEdge_widths,
          count_widths, W2).
  assert (R3 : ram c3 = ram c).
  { subst c3.
    destruct (Adder_FallingEdge_frame (GprBus_FallingEdge (count c2)))
      as (_ & _ & _ & _ & _ & _ & _ & ->).
    destruct (GprBus_FallingEdge_frame (count c2))
      as (_ & _ & _ & _ & _ & _ & _ & ->). exact R2. }
  pose proof (latch_widths _ W3) as W4.
  destruct (Memory_LowLevel_Running _ _ H4) as [[_ ->]|[_ [_ ->]]].
  - split; [ exact W4 | ]. replace (ram (latch c3)) with (ram c3) by now destruct c3.
    now rewrite R3.
  - split.
    + intros n. specialize (W4 n). destruct n, (latch c3); exact W4.
    + cbn [ram set_ram]. rewrite length_insert.
      replace (ram (latch c3)) with (ram c3) by now destruct c3. now rewrite R3.
Qed.

Lemma tick_widths c c' :
  tick c = Running c' ->
  widths c -> length (ram c) = 128%nat ->
  widths c' /\ length (ram c') = 128%nat.
Proof.
  intros Ht Hw Hl. destruct (tick_Running _ _ Ht) as (w & s & Hs & _ & Hp).
  apply (phases_widths _ _ Hp).
  - destruct (widths_elim _ Hw) as (Es & Ep & Ea & Eg & Ef & Eo & Em).
    unfold sequencer in Hs. destruct (at_ _ _); [ | discriminate ].
    destruct (asserts _ CLRSC).
    + injection Hs as <- <-. destruct c; apply widths_intro; cbn in *;
        try assumption; reflexivity.
    + destruct (asserts _ HLT); [ discriminate | ]. injection Hs as <- <-.
      destruct c; apply widths_intro; cbn in *; assumption.
  - now destruct c.
Qed.

Lemma reachable_in_widths c :
  reachable c -> widths c /\ length (ram c) = 128%nat.
Proof.
  induction 1 as [c0 Hf|c c' _ IH Ht].
  - rewrite Computer_Reset_eq. split; [ | exact Hf ].
    apply widths_intro; reflexivity.
  - destruct IH as [Hw Hl]. exact (tick_widths _ _ Ht Hw Hl).
Qed.

Lemma reachable_mar_range c : reachable c -> 0 <= mar c < 256.
Proof.
  intros Hr. destruct (reachable_in_widths _ Hr) as [Hw _].
  destruct (widths_elim _ Hw) as (_ & _ & _ & _ & _ & _ & Em).
  apply (in_width_range _ 8 ltac:(lia) Em).
Qed.

(** X1. In every state of a run from reset, for any program image, each
    register is inside its width (step counter and operation register
    below 16, program counter and memory address register below 256,
    accumulator and general-purpose register below 4096, flag word below
    4) and the memory still has its 128 cells. *)
Theorem reachable_widths (c : Computer) :
  reachable c ->
  widths c /\
  0 <= steps c < 16 /\ 0 <= pc c < 256 /\ 0 <= acc c < 4096 /\
  0 <= gpr c < 4096 /\ 0 <= flg c < 4 /\ 0 <= opr c < 16 /\
  0 <= mar c < 256 /\
  length (ram c) = 128%nat.
Proof.
  intros Hr. destruct (reachable_in_widths _ Hr) as [Hw Hl].
  split; [ exact Hw | ].
  destruct (widths_elim _ Hw) as (Es & Ep & Ea & Eg & Ef & Eo & Em).
  repeat split; try exact Hl;
    first [ apply (in_width_range _ 4 ltac:(lia) Es)
          | apply (in_width_range _ 8 ltac:(lia) Ep)
          | apply (in_width_range _ 12 ltac:(lia) Ea)
          | apply (in_width_range _ 12 ltac:(lia) Eg)
          | apply (in_width_range _ 2 ltac:(lia) Ef)
          | apply (in_width_range _ 4 ltac:(lia) Eo)
          | apply (in_width_range _ 8 ltac:(lia) Em) ].
Qed.

(** After 100 ticks of the built-in program. *)
Lemma reachable_widths_witness :
  reachable (after 100 (power_on junk0)) /\
  0 <= gpr (after 100 (power_on junk0)) < 4096 /\
  length (ram (after 100 (power_on junk0))) = 128%nat.
Proof.
  assert (Hr : reachable (after 100 (power_on junk0))).
  { apply (reachable_after 100 junk0); [ reflexivity | vm_compute; reflexivity ]. }
  split; [ exact Hr | ].
  destruct (reachable_widths _ Hr) as (_ & _ & _ & _ & Hg & _ & _ & _ & Hl).
  split; [ exact Hg | exact Hl ].
Defined.

(** ** The only fault *)

Lemma at_None (l : list Z) (i : Z) :
  0 <= i -> length l = 128%nat -> (at_ l i = None <-> 128 <= i).
Proof.
  intros Hi Hl. unfold at_.
  destruct (Z.leb_spec 0 i) as [_|]; [ | lia ].
  rewrite lookup_ge_None, Hl. lia.
Qed.

Lemma asserts_lor w a b : asserts w (a .| b) = asserts w a || asserts w b.
Proof.
  unfold asserts, truthy. rewrite Z.land_lor_distr_r.
  destruct (Z.eqb_spec (Z.land w a) 0) as [->|Ha]; cbn [negb orb].
  - now rewrite Z.lor_0_l.
  - destruct (Z.eqb_spec (Z.land w a .| Z.land w b) 0) as [E|_]; [ | reflexivity ].
    apply Z.lor_eq_0_iff in E. tauto.
Qed.

(** A published word that enables a memory write is [GPR_M] alone as far
    as the memory address register and the memory read are concerned. *)
Lemma emitted_GPR_M w :
  In w emitted -> asserts w ram_mInMask = true ->
  asserts w (PC_MAR .| GPR_MAR) = false /\ asserts w ram_mOutMask = false.
Proof.
  intros Hin Ha.
  assert (H : forallb (fun w => implb (asserts w ram_mInMask)
                 (negb (asserts w (PC_MAR .| GPR_MAR)) && negb (asserts w ram_mOutMask)))
                emitted = true) by (vm_compute; reflexivity).
  rewrite forallb_forall in H. specialize (H w Hin). rewrite Ha in H.
  cbn [implb] in H. apply andb_true_iff in H. destruct H as [H1 H2].
  apply negb_true_iff in H1, H2. now split.
Qed.

Lemma reachable_decodes c :
  reachable c -> exists w, at_ mMicrocode (microIndex (opr c) (steps c)) = Some w.
Proof.
  intros Hr. pose proof (reachable_in_sequence _ Hr) as Hi.
  pose proof (index_as_stated_always (opr c) (steps c)) as K.
  unfold index_as_stated in K. rewrite Hi in K. cbn [implb] in K.
  apply andb_true_iff in K. destruct K as [_ K].
  destruct (at_ mMicrocode _) as [w|]; [ eauto | discriminate ].
Qed.

(** The decode phase, case by case. *)
Lemma Control_RisingEdge_cases c w :
  at_ mMicrocode (microIndex (opr c) (steps c)) = Some w ->
  (exists w' s, sequencer (opr c) (steps c) (truthy (Z.land (flg c) 0x01))
                  (truthy (Z.land (flg c) 0x02)) = Some (w', s) /\
                Control_RisingEdge c = Running (set_ctrl (set_store sReg s c) w')) \/
  (exists c', Control_RisingEdge c = Exited c').
Proof.
  intros Ew. unfold Control_RisingEdge, sequencer.
  cbn [Reg.Get reg store mStore Register_new]. rewrite Ew.
  cbn -[skips asserts at_ mMicrocode regReset].
  destruct (asserts (skips _ _ w) CLRSC).
  - change (at_ mMicrocode 0) with (Some PC_MAR). cbn [andThen mCtrlLines set_ctrl].
    closed_tests. left. exists PC_MAR, 0. split; [ reflexivity | now destruct c ].
  - cbn [andThen mCtrlLines set_ctrl].
    destruct (asserts (skips _ _ w) HLT).
    + right. eauto.
    + left. eexists _, _. split; [ reflexivity | now destruct c ].
Qed.

(** X2. In a run from reset, for any program image, a tick indexes an
    array outside its extent exactly when the word it publishes enables
    the memory (read or write) while the memory address register holds
    128 or more; the microcode table is never the array at fault. *)
Theorem only_fault_is_memory_address (c : Computer) :
  reachable c ->
  (tick c = OutOfBounds <->
   exists c1, forEach RisingEdge c = Running c1 /\
              asserts (mCtrlLines c1) (ram_mOutMask .| ram_mInMask) = true /\
              128 <= mar c).
Proof.
  intros Hr.
  pose proof (reachable_mar_range _ Hr) as Hm.
  destruct (reachable_in_widths _ Hr) as [_ Hl].
  destruct (reachable_decodes _ Hr) as (w0 & Ew).
  unfold tick. rewrite forEach_RisingEdge.
  destruct (Control_RisingEdge_cases _ _ Ew) as [(w & s & Hs & ->)|(c' & ->)].
  2:{ cbn [andThen]. split; [ discriminate | intros (c1 & E & _); discriminate E ]. }
  cbn [andThen]. pose proof (sequencer_emitted _ _ _ _ _ _ Hs) as Hin.
  set (c1 := set_ctrl (set_store sReg s c) w).
  assert (Ec : mCtrlLines c1 = w) by now destruct c.
  assert (Em : mar c1 = mar c) by now destruct c.
  assert (Er : ram c1 = ram c) by now destruct c.
  unfold phases. rewrite forEach_HighLevel. unfold Memory_HighLevel.
  replace (mCtrlLines (Adder_HighLevel (set_bus c1 (drive c1)))) with w
    by (rewrite <- Ec; now destruct c1).
  replace (ram (Adder_HighLevel (set_bus c1 (drive c1)))) with (ram c)
    by (rewrite <- Er; now destruct c1).
  cbn [Reg.Get reg store mStore Register_new].
  replace (mar (Adder_HighLevel (set_bus c1 (drive c1)))) with (mar c)
    by (rewrite <- Em; now destruct c1).
  destruct (asserts w ram_mOutMask) eqn:Ho.
  - (* a read *)
    destruct (at_ (ram c) (mar c)) as [v|] eqn:Ev.
    + cbn [andThen]. rewrite forEach_FallingEdge. cbn [andThen].
      rewrite forEach_LowLevel. unfold Memory_LowLevel.
      match goal with |- context [latch ?x] => set (c3 := x) end.
      assert (E3 : mCtrlLines c3 = w).
      { unfold c3.
        destruct (Adder_FallingEdge_frame (GprBus_FallingEdge (count
          (set_bus (Adder_HighLevel (set_bus c1 (drive c1))) v)))) as (_ & -> & _).
        destruct (GprBus_FallingEdge_frame (count
          (set_bus (Adder_HighLevel (set_bus c1 (drive c1))) v))) as (_ & -> & _).
        rewrite <- Ec. now destruct c1. }
      replace (mCtrlLines (latch c3)) with w by (rewrite <- E3; now destruct c3).
      destruct (asserts w ram_mInMask) eqn:Hi.
      { destruct (emitted_GPR_M _ Hin Hi) as [_ F]. congruence. }
      split; [ discriminate | ].
      intros (c1' & [= <-] & _ & Hge).
      apply (at_None _ _ (proj1 Hm) Hl) in Hge. congruence.
    + cbn [andThen]. split; [ intros _ | reflexivity ].
      exists c1. split; [ reflexivity | ]. rewrite asserts_lor, Ec, Ho. split; [ reflexivity | ].
      now apply (at_None _ _ (proj1 Hm) Hl).
  - cbn [andThen]. rewrite forEach_FallingEdge. cbn [andThen].
    rewrite forEach_LowLevel. unfold Memory_LowLevel.
    match goal with |- context [latch ?x] => set (c3 := x) end.
    assert (E3 : mCtrlLines c3 = w /\ mar c3 = mar c /\ ram c3 = ram c).
    { unfold c3.
      destruct (Adder_FallingEdge_frame (GprBus_FallingEdge (count
        (Adder_HighLevel (set_bus c1 (drive c1))))))
        as (_ & -> & _ & _ & _ & _ & -> & ->).
      destruct (GprBus_FallingEdge_frame (count
        (Adder_HighLevel (set_bus c1 (drive c1)))))
        as (_ & -> & _ & _ & _ & -> & _ & ->).
      rewrite <- Ec, <- Em, <- Er. now destruct c1. }
    destruct E3 as (E3 & M3 & R3).
    replace (mCtrlLines (latch c3)) with w by (rewrite <- E3; now destruct c3).
    replace (ram (latch c3)) with (ram c) by (rewrite <- R3; now destruct c3).
    cbn [Reg.Get reg store mStore Register_new].
    destruct (asserts w ram_mInMask) eqn:Hi.
    + destruct (emitted_GPR_M _ Hin Hi) as [Hn _].
      replace (mar (latch c3)) with (mar c)
        by (rewrite <- M3; unfold latch; cbn [mar]; now rewrite E3, Hn).
      destruct (at_ (ram c) (mar c)) as [v|] eqn:Ev.
      * split; [ discriminate | ].
        intros (c1' & _ & _ & Hge).
        apply (at_None _ _ (proj1 Hm) Hl) in Hge. congruence.
      * split; [ intros _ | reflexivity ].
        exists c1. split; [ reflexivity | ]. rewrite asserts_lor, Ec, Ho, Hi.
        split; [ reflexivity | ]. now apply (at_None _ _ (proj1 Hm) Hl).
    + split; [ discriminate | ].
      intros (c1' & [= <-] & Ha & _). rewrite asserts_lor, Ec, Ho, Hi in Ha. discriminate Ha.
Qed.

(** The fifth tick of the program [ADD 80]. *)
Lemma only_fault_is_memory_address_witness :
  reachable (after 4 (power_on_with prg_add_0x80 junk0)) /\
  mar (after 4 (power_on_with prg_add_0x80 junk0)) = 128 /\
  tick (after 4 (power_on_with prg_add_0x80 junk0)) = OutOfBounds.
Proof.
  assert (Hr : reachable (after 4 (power_on_with prg_add_0x80 junk0))).
  { apply (run_reachable 4 (power_on_with prg_add_0x80 junk0)).
    - apply power_on_with_reachable; [ cbn; lia | reflexivity ].
    - vm_compute. reflexivity. }
  split; [ exact Hr | ]. split; [ reflexivity | ].
  apply (only_fault_is_memory_address _ Hr).
  eexists. split; [ vm_compute; reflexivity | ].
  split; [ reflexivity | vm_compute; discriminate ].
Defined.

(** ** One tick under each microcode word *)

Lemma Adder_operate_none c :
  Z.land (mCtrlLines c) alu_mInMask = 0 -> Adder_operate c = c.
Proof.
  intros H. destruct (Adder_operate_cases c) as [_|E|E|E|E|E|E|E];
    try (rewrite H in E; discriminate E). reflexivity.
Qed.

Lemma Adder_operate_ADD c :
  Z.land (mCtrlLines c) alu_mInMask = ADD ->
  Adder_operate c = regSet accReg (aluStore (alu c)) c.
Proof.
  intros H. destruct (Adder_operate_cases c) as [E|E|E|E|E|E|E|E];
    try (rewrite H in E; discriminate E); [ | reflexivity ].
  exfalso. apply (E ADD); [ cbn; auto 10 | exact H ].
Qed.

Lemma Adder_operate_COMA c :
  Z.land (mCtrlLines c) alu_mInMask = COMA ->
  Adder_operate c = regSet accReg (Z.land (Z.lnot (acc c)) 0x0fff) c.
Proof.
  intros H. destruct (Adder_operate_cases c) as [E|E|E|E|E|E|E|E];
    try (rewrite H in E; discriminate E); [ | reflexivity ].
  exfalso. apply (E COMA); [ cbn; auto 10 | exact H ].
Qed.

Lemma Adder_operate_COMF c :
  Z.land (mCtrlLines c) alu_mInMask = COMF ->
  Adder_operate c = regSet flgReg (Z.land (Z.lxor (flg c) 0x0001) 0x0003) c.
Proof.
  intros H. destruct (Adder_operate_cases c) as [E|E|E|E|E|E|E|E];
    try (rewrite H in E; discriminate E); [ | reflexivity ].
  exfalso. apply (E COMF); [ cbn; auto 10 | exact H ].
Qed.

Lemma Adder_operate_CLRA c :
  Z.land (mCtrlLines c) alu_mInMask = CLRA ->
  Adder_operate c = regReset accReg c.
Proof.
  intros H. destruct (Adder_operate_cases c) as [E|E|E|E|E|E|E|E];
    try (rewrite H in E; discriminate E); [ | reflexivity ].
  exfalso. apply (E CLRA); [ cbn; auto 10 | exact H ].
Qed.

Lemma Adder_operate_CLRF c :
  Z.land (mCtrlLines c) alu_mInMask = CLRF ->
  Adder_operate c = regSet flgReg (Z.land (flg c) 0x0002) c.
Proof.
  intros H. destruct (Adder_operate_cases c) as [E|E|E|E|E|E|E|E];
    try (rewrite H in E; discriminate E); [ | reflexivity ].
  exfalso. apply (E CLRF); [ cbn; auto 10 | exact H ].
Qed.

Lemma Adder_operate_ROL c :
  Z.land (mCtrlLines c) alu_mInMask = ROL -> Adder_operate c = RolAcc c.
Proof.
  intros H. destruct (Adder_operate_cases c) as [E|E|E|E|E|E|E|E];
    try (rewrite H in E; discriminate E); [ | reflexivity ].
  exfalso. apply (E ROL); [ cbn; auto 10 | exact H ].
Qed.

Lemma Adder_operate_ROR c :
  Z.land (mCtrlLines c) alu_mInMask = ROR -> Adder_operate c = RorAcc c.
Proof.
  intros H. destruct (Adder_operate_cases c) as [E|E|E|E|E|E|E|E];
    try (rewrite H in E; discriminate E); [ | reflexivity ].
  exfalso. apply (E ROR); [ cbn; auto 10 | exact H ].
Qed.

(** Symbolic execution of the three phases under a word given as a
    constant: every test on the control bus evaluates. *)
Ltac phases_by_word :=
  unfold clock, phases; rewrite forEach_HighLevel;
  unfold drive, Memory_HighLevel;
  cbn -[forEach Adder_FallingEdge GprBus_FallingEdge latch Memory_LowLevel count asserts at_];
  closed_tests;
  cbn -[forEach Adder_FallingEdge GprBus_FallingEdge latch Memory_LowLevel count asserts at_];
  repeat match goal with
  | H : at_ _ _ = _ |- _ => rewrite H
  end;
  cbn [andThen]; rewrite forEach_FallingEdge; cbn [andThen];
  rewrite forEach_LowLevel;
  unfold GprBus_FallingEdge, count;
  cbn -[Adder_FallingEdge latch Memory_LowLevel asserts at_];
  closed_tests;
  cbn -[Adder_FallingEdge latch Memory_LowLevel asserts at_];
  unfold Adder_FallingEdge; rewrite Adder_flags_eq;
  cbn -[Adder_operate latch Memory_LowLevel asserts at_];
  first [ rewrite Adder_operate_none by reflexivity
        | rewrite Adder_operate_ADD by reflexivity
        | rewrite Adder_operate_COMA by reflexivity
        | rewrite Adder_operate_COMF by reflexivity
        | rewrite Adder_operate_CLRA by reflexivity
        | rewrite Adder_operate_CLRF by reflexivity
        | rewrite Adder_operate_ROL by reflexivity; unfold RolAcc, carryOut
        | rewrite Adder_operate_ROR by reflexivity; unfold RorAcc, carryOut ];
  unfold latch, Memory_LowLevel;
  cbn -[asserts at_]; closed_tests; cbn -[asserts at_];
  repeat match goal with
  | H : at_ _ _ = _ |- _ => rewrite H
  end.

(** In these lemmas the machine before the tick is given field by field:
    data bus, control bus, step counter, program counter, accumulator,
    general-purpose register, flag word, operation register, memory
    address register, the adder's temporaries, memory. *)

Lemma clock_nop bus ctrl s p a g f o m al r :
  clock 0 (mkComputer bus ctrl s p a g f o m al r) =
  Running (mkComputer bus 0 (Z.land (s + 1) 0x000f) p a g (zeroFlag g f) o m (idleAdder g f (Z.land (a + g) 0x0fff)) r).
Proof. phases_by_word. reflexivity. Qed.

Lemma clock_PC_MAR bus ctrl s p a g f o m al r :
  clock PC_MAR (mkComputer bus ctrl s p a g f o m al r) =
  Running (mkComputer p PC_MAR (Z.land (s + 1) 0x000f) p a g (zeroFlag g f) o (Z.land p 0x00ff)
             (idleAdder g f (Z.land (a + g) 0x0fff)) r).
Proof. phases_by_word. reflexivity. Qed.

Lemma clock_fetch bus ctrl s p a g f o m al r v :
  at_ r m = Some v ->
  clock (M_GPR .| INCPC) (mkComputer bus ctrl s p a g f o m al r) =
  Running (mkComputer v (M_GPR .| INCPC) (Z.land (s + 1) 0x000f) (Z.land (p + 1) 0x00ff) a
             (Z.land v 0x0fff) (zeroFlag g f) o m (idleAdder g f (Z.land (a + g) 0x0fff)) r).
Proof. intros H. phases_by_word. reflexivity. Qed.

Lemma clock_GPR_OP bus ctrl s p a g f o m al r :
  clock GPR_OP (mkComputer bus ctrl s p a g f o m al r) =
  Running (mkComputer g GPR_OP (Z.land (s + 1) 0x000f) p a g (zeroFlag g f)
             (Z.land (Z.shiftr g 8) 0x000f) m (idleAdder g f (Z.land (a + g) 0x0fff)) r).
Proof. phases_by_word. reflexivity. Qed.

Lemma clock_GPR_MAR bus ctrl s p a g f o m al r :
  clock GPR_MAR (mkComputer bus ctrl s p a g f o m al r) =
  Running (mkComputer g GPR_MAR (Z.land (s + 1) 0x000f) p a g (zeroFlag g f) o (Z.land g 0x00ff)
             (idleAdder g f (Z.land (a + g) 0x0fff)) r).
Proof. phases_by_word. reflexivity. Qed.

Lemma clock_M_GPR bus ctrl s p a g f o m al r v :
  at_ r m = Some v ->
  clock M_GPR (mkComputer bus ctrl s p a g f o m al r) =
  Running (mkComputer v M_GPR (Z.land (s + 1) 0x000f) p a (Z.land v 0x0fff) (zeroFlag g f) o m
             (idleAdder g f (Z.land (a + g) 0x0fff)) r).
Proof. intros H. phases_by_word. reflexivity. Qed.

Lemma clock_GPR_M bus ctrl s p a g f o m al r v :
  at_ r m = Some v ->
  clock GPR_M (mkComputer bus ctrl s p a g f o m al r) =
  Running (mkComputer g GPR_M (Z.land (s + 1) 0x000f) p a g (zeroFlag g f) o m (idleAdder g f (Z.land (a + g) 0x0fff))
             (<[Z.to_nat m := g]> r)).
Proof. intros H. phases_by_word. reflexivity. Qed.

Lemma clock_GPR_M_fault bus ctrl s p a g f o m al r :
  at_ r m = None -> clock GPR_M (mkComputer bus ctrl s p a g f o m al r) = OutOfBounds.
Proof. intros H. phases_by_word. reflexivity. Qed.


Lemma clock_GPR_PC bus ctrl s p a g f o m al r :
  clock GPR_PC (mkComputer bus ctrl s p a g f o m al r) =
  Running (mkComputer g GPR_PC (Z.land (s + 1) 0x000f) (Z.land g 0x00ff) a g (zeroFlag g f) o m
             (idleAdder g f (Z.land (a + g) 0x0fff)) r).
Proof. phases_by_word. reflexivity. Qed.




Lemma clock_INCA bus ctrl s p a g f o m al r :
  clock INCA (mkComputer bus ctrl s p a g f o m al r) =
  Running (mkComputer bus INCA (Z.land (s + 1) 0x000f) p (Z.land (a + 1) 0x0fff) g (zeroFlag g f) o m
             (idleAdder g f (Z.land (a + g) 0x0fff)) r).
Proof. phases_by_word. reflexivity. Qed.

Lemma clock_CLRA bus ctrl s p a g f o m al r :
  clock CLRA (mkComputer bus ctrl s p a g f o m al r) =
  Running (mkComputer bus CLRA (Z.land (s + 1) 0x000f) p 0 g (zeroFlag g f) o m (idleAdder g f (Z.land (a + g) 0x0fff)) r).
Proof. phases_by_word. reflexivity. Qed.

Lemma clock_COMA bus ctrl s p a g f o m al r :
  clock COMA (mkComputer bus ctrl s p a g f o m al r) =
  Running (mkComputer bus COMA (Z.land (s + 1) 0x000f) p (Z.land (Z.land (Z.lnot a) 0x0fff) 0x0fff) g
             (zeroFlag g f) o m (idleAdder g f (Z.land (a + g) 0x0fff)) r).
Proof. phases_by_word. reflexivity. Qed.

Lemma clock_ADD bus ctrl s p a g f o m al r :
  clock ADD (mkComputer bus ctrl s p a g f o m al r) =
  Running (mkComputer bus ADD (Z.land (s + 1) 0x000f) p (Z.land (Z.land (a + g) 0x0fff) 0x0fff) g (zeroFlag g f) o m
             (idleAdder g f (Z.land (a + g) 0x0fff)) r).
Proof. phases_by_word. reflexivity. Qed.

Lemma clock_CLRF bus ctrl s p a g f o m al r :
  clock CLRF (mkComputer bus ctrl s p a g f o m al r) =
  Running (mkComputer bus CLRF (Z.land (s + 1) 0x000f) p a g
             (Z.land (Z.land (zeroFlag g f) 0x0002) 0x0003) o m
             (idleAdder g f (Z.land (a + g) 0x0fff)) r).
Proof. phases_by_word. reflexivity. Qed.

Lemma clock_COMF bus ctrl s p a g f o m al r :
  clock COMF (mkComputer bus ctrl s p a g f o m al r) =
  Running (mkComputer bus COMF (Z.land (s + 1) 0x000f) p a g
             (Z.land (Z.land (Z.lxor (zeroFlag g f) 0x0001) 0x0003) 0x0003) o m
             (idleAdder g f (Z.land (a + g) 0x0fff)) r).
Proof. phases_by_word. reflexivity. Qed.

Lemma clock_INCPCF bus ctrl s p a g f o m al r :
  clock INCPCF (mkComputer bus ctrl s p a g f o m al r) =
  Running (mkComputer bus INCPCF (Z.land (s + 1) 0x000f) p a g (zeroFlag g f) o m (idleAdder g f (Z.land (a + g) 0x0fff)) r).
Proof. phases_by_word. reflexivity. Qed.

Lemma clock_INCPCF_INCPC bus ctrl s p a g f o m al r :
  clock (INCPCF .| INCPC) (mkComputer bus ctrl s p a g f o m al r) =
  Running (mkComputer bus (INCPCF .| INCPC) (Z.land (s + 1) 0x000f) (Z.land (p + 1) 0x00ff) a g
             (zeroFlag g f) o m (idleAdder g f (Z.land (a + g) 0x0fff)) r).
Proof. phases_by_word. reflexivity. Qed.



Lemma word_ROL bus ctrl s p a g f o m al r :
  clock ROL (mkComputer bus ctrl s p a g f o m al r) =
  Running (mkComputer bus ROL (Z.land (s + 1) 0x000f) p
             (Z.land (Z.land (Z.shiftl a 1) 0x0fff
                      .| (if truthy (Z.land f 0x0001) then 1 else 0)) 0x0fff) g
             (Z.land (carried (Z.land a 0x0800) (zeroed g f)) 0x0003) o m
             (mkAdder (carried (Z.land a 0x0800) (zeroed g f))
                      (if truthy (Z.land f 0x0001) then 1 else 0)
                      (Z.land (Z.shiftl a 1) 0x0fff
                       .| (if truthy (Z.land f 0x0001) then 1 else 0))) r).
Proof.
  phases_by_word. unfold carried.
  destruct (truthy (Z.land a 2048)); reflexivity.
Qed.

Lemma word_ROR bus ctrl s p a g f o m al r :
  clock ROR (mkComputer bus ctrl s p a g f o m al r) =
  Running (mkComputer bus ROR (Z.land (s + 1) 0x000f) p
             (Z.land (if truthy (if truthy (Z.land f 0x0001) then 1 else 0)
                      then Z.land (Z.shiftr a 1) 0x0fff .| 0x0800
                      else Z.land (Z.shiftr a 1) 0x0fff .| 0x0000) 0x0fff) g
             (Z.land (carried (Z.land a 0x0001) (zeroed g f)) 0x0003) o m
             (mkAdder (carried (Z.land a 0x0001) (zeroed g f))
                      (if truthy (Z.land f 0x0001) then 1 else 0) (Z.land (a + g) 0x0fff)) r).
Proof.
  phases_by_word. unfold carried.
  destruct (truthy (Z.land a 1)); reflexivity.
Qed.


(** ** The decode phase on the words of the table *)


Lemma run_add n k c : run (n + k) c = andThen (run n c) (run k).
Proof.
  revert c. induction n as [|n IH]; intros c; cbn [run Nat.add]; [ reflexivity | ].
  destruct (tick c) as [c1| |]; cbn [andThen]; [ apply IH | reflexivity | reflexivity ].
Qed.

(** A word without skip, clear or halt bit is published as it is. *)
Lemma tick_plain c w :
  at_ mMicrocode (microIndex (opr c) (steps c)) = Some w ->
  asserts w (INCPCF .| INCPCZ .| CLRSC .| HLT) = false ->
  tick c = clock w c.
Proof.
  intros Ew Hn. rewrite !asserts_lor in Hn.
  apply orb_false_iff in Hn. destruct Hn as [Hn Hh].
  apply orb_false_iff in Hn. destruct Hn as [Hn Hc].
  apply orb_false_iff in Hn. destruct Hn as [Hf Hz].
  unfold tick, clock. rewrite forEach_RisingEdge. unfold Control_RisingEdge.
  cbn [Reg.Get reg store mStore Register_new]. rewrite Ew.
  unfold skips. rewrite Hf, Hz.
  cbn [mCtrlLines set_ctrl]. rewrite Hc. cbn [andThen mCtrlLines set_ctrl].
  rewrite Hh. reflexivity.
Qed.

(** A word with the clear bit: the tick is the first fetch step, taken
    with the step counter at zero. *)
Lemma tick_clear c w :
  at_ mMicrocode (microIndex (opr c) (steps c)) = Some w ->
  asserts w CLRSC = true ->
  tick c = clock PC_MAR (set_store sReg 0 c).
Proof.
  intros Ew Hc.
  unfold tick, clock. rewrite forEach_RisingEdge. unfold Control_RisingEdge.
  cbn [Reg.Get reg store mStore Register_new]. rewrite Ew.
  cbn -[skips asserts at_ mMicrocode regReset phases].
  rewrite skips_CLRSC, Hc.
  change (at_ mMicrocode 0) with (Some PC_MAR).
  cbn [andThen mCtrlLines set_ctrl]. closed_tests.
  now destruct c.
Qed.

(** The two conditional skips. *)
Lemma tick_INCPCF c :
  at_ mMicrocode (microIndex (opr c) (steps c)) = Some INCPCF ->
  tick c = clock (if flagF c then INCPCF else INCPCF .| INCPC) c.
Proof.
  intros Ew.
  unfold tick, clock, flagF. rewrite forEach_RisingEdge. unfold Control_RisingEdge.
  cbn [Reg.Get reg store mStore Register_new]. rewrite Ew, truthy_bit0.
  unfold skips. closed_tests.
  destruct (Z.testbit (flg c) 0); cbn [negb mCtrlLines set_ctrl andThen];
    closed_tests; cbn [mCtrlLines set_ctrl andThen]; closed_tests; reflexivity.
Qed.


(** The flag word after the adder's recomputation: F is kept, Z tells
    whether the register is zero, nothing else is set. *)
Lemma zeroFlag_F g f : Z.testbit (zeroFlag g f) 0 = Z.testbit f 0.
Proof. unfold zeroFlag. destruct (truthy g); bits. Qed.


Lemma land_4095_255 x : Z.land (Z.land x 0x0fff) 0x00ff = Z.land x 0x00ff.
Proof. now rewrite <- Z.land_assoc. Qed.

(** One tick, decoded and executed, on a machine given field by field. *)
Ltac plain_tick W L :=
  rewrite (tick_plain _ W) by reflexivity; rewrite L; cbn [andThen].
Ltac clear_tick W :=
  rewrite (tick_clear _ W) by reflexivity; cbn [set_store];
  rewrite clock_PC_MAR; cbn [andThen].

(** The two fetch steps that follow a boundary. *)
Lemma fetch bus ctrl p a g f o al r word :
  at_ r p = Some word ->
  run 2 (mkComputer bus ctrl 1 p a g f o p al r) =
  Running (mkComputer (Z.land word 0x0fff) GPR_OP 3 (Z.land (p + 1) 0x00ff) a
             (Z.land word 0x0fff)
             (zeroFlag (Z.land word 0x0fff) (zeroFlag g f))
             (opcode_field word) p
             (idleAdder (Z.land word 0x0fff) (zeroFlag g f)
                        (Z.land (a + Z.land word 0x0fff) 0x0fff)) r).
Proof.
  intros Hw. cbn [run].
  rewrite (tick_plain _ (M_GPR .| INCPC)) by reflexivity.
  rewrite (clock_fetch _ _ _ _ _ _ _ _ _ _ _ word Hw). cbn [andThen].
  rewrite (tick_plain _ GPR_OP) by reflexivity.
  rewrite clock_GPR_OP. cbn [andThen]. reflexivity.
Qed.

(** ** The instructions

    Each theorem starts at an instruction boundary with the instruction
    word at the program counter, runs the ticks of the fetch and execute
    steps, and ends at the next boundary. *)

Lemma truthy_land_pow2 x n : 0 <= n -> truthy (Z.land x (2 ^ n)) = Z.testbit x n.
Proof.
  intros Hn.
  assert (E : Z.land x (2 ^ n) = if Z.testbit x n then 2 ^ n else 0).
  { apply Z.bits_inj'. intros k Hk. rewrite Z.land_spec, Z.pow2_bits_eqb by lia.
    destruct (Z.eqb_spec n k) as [<-|Hne].
    - rewrite andb_true_r. destruct (Z.testbit x n) eqn:E; [ | now rewrite Z.bits_0 ].
      rewrite Z.pow2_bits_eqb by lia. now rewrite Z.eqb_refl.
    - rewrite andb_false_r. destruct (Z.testbit x n); [ | now rewrite Z.bits_0 ].
      rewrite Z.pow2_bits_eqb by lia. symmetry. now apply Z.eqb_neq. }
  unfold truthy. rewrite E. destruct (Z.testbit x n); [ | reflexivity ].
  assert (0 < 2 ^ n) by (apply Z.pow_pos_nonneg; lia).
  destruct (Z.eqb_spec (2 ^ n) 0); [ lia | reflexivity ].
Qed.

Lemma lnot_12 a : 0 <= a < 4096 -> Z.land (Z.lnot a) 0x0fff = 4095 - a.
Proof.
  intros Ha. change (Z.land (Z.lnot a) 0x0fff) with (Z.land (Z.lnot a) (Z.ones 12)).
  rewrite Z.land_ones by lia. change (2 ^ 12) with 4096.
  assert (E : Z.lnot a = 4096 * -1 + (4095 - a)) by (unfold Z.lnot; lia).
  symmetry. apply (Z.mod_unique _ _ (-1)); [ left; lia | exact E ].
Qed.


Lemma carried_F bit nf : Z.testbit (Z.land (carried bit nf) 0x0003) 0 = truthy bit.
Proof. unfold carried. destruct (truthy bit); bits. Qed.

(** The halt word stops the tick in its decode phase. *)
Lemma tick_halt c :
  at_ mMicrocode (microIndex (opr c) (steps c)) = Some HLT ->
  tick c = Exited (set_ctrl c HLT).
Proof.
  intros Ew. unfold tick. rewrite forEach_RisingEdge. unfold Control_RisingEdge.
  cbn [Reg.Get reg store mStore Register_new]. rewrite Ew.
  unfold skips. closed_tests. cbn -[asserts]. closed_tests. reflexivity.
Qed.

Ltac at_boundary_of c :=
  destruct c as [bus ctrl s p a g f o m al r]; unfold boundary, flagF;
  cbn [steps mar pc ram acc flg].

Ltac fetched Hw Hop :=
  rewrite run_add, (fetch _ _ _ _ _ _ _ _ _ _ Hw); cbn [andThen run]; rewrite Hop.

Ltac arrived :=
  eexists; split; [ reflexivity | ]; cbn [steps mar pc acc flg ram].

(** X3. CRA (opcode 1): four ticks clear the accumulator. *)
Theorem CRA_instruction (c : Computer) (word : Z) :
  boundary c ->
  at_ (ram c) (pc c) = Some word ->
  opcode_field word = 1 ->
  exists c',
    run 4 c = Running c' /\ boundary c' /\
    pc c' = Z.land (pc c + 1) 0x00ff /\
    acc c' = 0 /\ flagF c' = flagF c /\ ram c' = ram c.
Proof.
  at_boundary_of c. intros [-> ->] Hw Hop.
  change 4%nat with (2 + 2)%nat. fetched Hw Hop.
  plain_tick CLRA clock_CLRA. clear_tick CLRSC. arrived.
  split; [ split; [ reflexivity | apply land_idem ] | ].
  split; [ reflexivity | ]. split; [ reflexivity | ].
  split; [ now rewrite !zeroFlag_F | reflexivity ].
Qed.

(** X4. CTA (opcode 2): four ticks complement the accumulator within 12
    bits; for an accumulator inside its width the result is 4095 minus
    it. *)
Theorem CTA_instruction (c : Computer) (word : Z) :
  boundary c ->
  at_ (ram c) (pc c) = Some word ->
  opcode_field word = 2 ->
  exists c',
    run 4 c = Running c' /\ boundary c' /\
    pc c' = Z.land (pc c + 1) 0x00ff /\
    acc c' = Z.land (Z.lnot (acc c)) 0x0fff /\
    (0 <= acc c < 4096 -> acc c' = 4095 - acc c) /\
    flagF c' = flagF c /\ ram c' = ram c.
Proof.
  at_boundary_of c. intros [-> ->] Hw Hop.
  change 4%nat with (2 + 2)%nat. fetched Hw Hop.
  plain_tick COMA clock_COMA. clear_tick CLRSC. arrived.
  split; [ split; [ reflexivity | apply land_idem ] | ].
  split; [ reflexivity | ]. split; [ apply land_idem | ].
  split; [ intros Ha; rewrite land_idem; now apply lnot_12 | ].
  split; [ now rewrite !zeroFlag_F | reflexivity ].
Qed.

(** X5. ITA (opcode 3): four ticks add one to the accumulator modulo
    4096. *)
Theorem ITA_instruction (c : Computer) (word : Z) :
  boundary c ->
  at_ (ram c) (pc c) = Some word ->
  opcode_field word = 3 ->
  exists c',
    run 4 c = Running c' /\ boundary c' /\
    pc c' = Z.land (pc c + 1) 0x00ff /\
    acc c' = Z.land (acc c + 1) 0x0fff /\
    flagF c' = flagF c /\ ram c' = ram c.
Proof.
  at_boundary_of c. intros [-> ->] Hw Hop.
  change 4%nat with (2 + 2)%nat. fetched Hw Hop.
  plain_tick INCA clock_INCA. clear_tick CLRSC. arrived.
  split; [ split; [ reflexivity | apply land_idem ] | ].
  split; [ reflexivity | ]. split; [ reflexivity | ].
  split; [ now rewrite !zeroFlag_F | reflexivity ].
Qed.

(** X6. CRF (opcode 4) clears F and CTF (opcode 5) complements it, in
    four ticks each; the accumulator and the memory stay. *)
Theorem CRF_CTF_instructions (c : Computer) (word : Z) :
  boundary c ->
  at_ (ram c) (pc c) = Some word ->
  (opcode_field word = 4 \/ opcode_field word = 5) ->
  exists c',
    run 4 c = Running c' /\ boundary c' /\
    pc c' = Z.land (pc c + 1) 0x00ff /\
    flagF c' = (if opcode_field word =? 4 then false else negb (flagF c)) /\
    acc c' = acc c /\ ram c' = ram c.
Proof.
  at_boundary_of c. intros [-> ->] Hw [Hop|Hop].
  - change 4%nat with (2 + 2)%nat. fetched Hw Hop.
    plain_tick CLRF clock_CLRF. clear_tick CLRSC. arrived.
    split; [ split; [ reflexivity | apply land_idem ] | ].
    split; [ reflexivity | ].
    split; [ rewrite zeroFlag_F; cbn [Z.eqb Pos.eqb]; bits | ].
    split; reflexivity.
  - change 4%nat with (2 + 2)%nat. fetched Hw Hop.
    plain_tick COMF clock_COMF. clear_tick CLRSC. arrived.
    split; [ split; [ reflexivity | apply land_idem ] | ].
    split; [ reflexivity | ].
    split; [ | split; reflexivity ].
    rewrite zeroFlag_F. cbn [Z.eqb Pos.eqb].
    rewrite !Z.land_spec, Z.lxor_spec, !zeroFlag_F. closed_bits.
    rewrite !andb_true_r. now destruct (Z.testbit f 0).
Qed.

(** X7. SFZ (opcode 6): four ticks advance the program counter by two
    when F is clear and by one when F is set. *)
Theorem SFZ_instruction (c : Computer) (word : Z) :
  boundary c ->
  at_ (ram c) (pc c) = Some word ->
  opcode_field word = 6 ->
  exists c',
    run 4 c = Running c' /\ boundary c' /\
    pc c' = (if flagF c then Z.land (pc c + 1) 0x00ff
             else Z.land (Z.land (pc c + 1) 0x00ff + 1) 0x00ff) /\
    flagF c' = flagF c /\ acc c' = acc c /\ ram c' = ram c.
Proof.
  at_boundary_of c. intros [-> ->] Hw Hop.
  change 4%nat with (2 + 2)%nat. fetched Hw Hop.
  rewrite tick_INCPCF by reflexivity. unfold flagF. cbn [flg].
  rewrite !zeroFlag_F.
  destruct (Z.testbit f 0) eqn:EF.
  - rewrite clock_INCPCF. cbn [andThen]. clear_tick CLRSC. arrived.
    split; [ split; [ reflexivity | apply land_idem ] | ].
    split; [ reflexivity | ].
    split; [ now rewrite !zeroFlag_F | split; reflexivity ].
  - rewrite clock_INCPCF_INCPC. cbn [andThen]. clear_tick CLRSC. arrived.
    split; [ split; [ reflexivity | apply land_idem ] | ].
    split; [ reflexivity | ].
    split; [ now rewrite !zeroFlag_F | split; reflexivity ].
Qed.

(** X8. ROR (opcode 7) and ROL (opcode 8): four ticks rotate the
    accumulator one place through F; F receives the bit shifted out,
    bit 0 for ROR and bit 11 for ROL. *)
Theorem ROR_ROL_instructions (c : Computer) (word : Z) :
  boundary c ->
  at_ (ram c) (pc c) = Some word ->
  (opcode_field word = 7 \/ opcode_field word = 8) ->
  exists c',
    run 4 c = Running c' /\ boundary c' /\
    pc c' = Z.land (pc c + 1) 0x00ff /\
    acc c' = (if opcode_field word =? 7 then rorA (acc c) (flagF c)
              else rolA (acc c) (flagF c)) /\
    flagF c' = (if opcode_field word =? 7 then Z.testbit (acc c) 0
                else Z.testbit (acc c) 11) /\
    ram c' = ram c.
Proof.
  at_boundary_of c. intros [-> ->] Hw [Hop|Hop].
  - change 4%nat with (2 + 2)%nat. fetched Hw Hop.
    plain_tick ROR word_ROR. clear_tick CLRSC. arrived.
    split; [ split; [ reflexivity | apply land_idem ] | ].
    split; [ reflexivity | ]. cbn [Z.eqb Pos.eqb].
    split; [ | split; [ | reflexivity ] ].
    + unfold rorA. rewrite truthy_bit0, zeroFlag_F, zeroFlag_F.
      now destruct (Z.testbit f 0).
    + now rewrite zeroFlag_F, carried_F, truthy_bit0.
  - change 4%nat with (2 + 2)%nat. fetched Hw Hop.
    plain_tick ROL word_ROL. clear_tick CLRSC. arrived.
    split; [ split; [ reflexivity | apply land_idem ] | ].
    split; [ reflexivity | ]. cbn [Z.eqb Pos.eqb].
    split; [ | split; [ | reflexivity ] ].
    + unfold rolA. rewrite truthy_bit0, zeroFlag_F, zeroFlag_F.
      now destruct (Z.testbit f 0).
    + rewrite zeroFlag_F, carried_F. change 0x0800 with (2 ^ 11).
      apply truthy_land_pow2. lia.
Qed.

(** X9. ADD (opcode 9): six ticks add the low 12 bits of the addressed
    cell to the accumulator modulo 4096. *)
Theorem ADD_instruction (c : Computer) (word v : Z) :
  boundary c ->
  at_ (ram c) (pc c) = Some word ->
  opcode_field word = 9 ->
  at_ (ram c) (address_field word) = Some v ->
  exists c',
    run 6 c = Running c' /\ boundary c' /\
    pc c' = Z.land (pc c + 1) 0x00ff /\
    acc c' = Z.land (acc c + Z.land v 0x0fff) 0x0fff /\
    flagF c' = flagF c /\ ram c' = ram c.
Proof.
  at_boundary_of c. intros [-> ->] Hw Hop Hv.
  change 6%nat with (2 + 4)%nat. fetched Hw Hop.
  plain_tick GPR_MAR clock_GPR_MAR.
  rewrite land_4095_255. fold (address_field word).
  rewrite (tick_plain _ M_GPR) by reflexivity.
  erewrite clock_M_GPR by eassumption. cbn [andThen].
  plain_tick ADD clock_ADD. clear_tick CLRSC. arrived.
  split; [ split; [ reflexivity | apply land_idem ] | ].
  split; [ reflexivity | ]. split; [ apply land_idem | ].
  split; [ now rewrite !zeroFlag_F | reflexivity ].
Qed.



(** X12. JMP (opcode 12): four ticks load the program counter with the
    address field. *)
Theorem JMP_instruction (c : Computer) (word : Z) :
  boundary c ->
  at_ (ram c) (pc c) = Some word ->
  opcode_field word = 12 ->
  exists c',
    run 4 c = Running c' /\ boundary c' /\
    pc c' = address_field word /\
    acc c' = acc c /\ flagF c' = flagF c /\ ram c' = ram c.
Proof.
  at_boundary_of c. intros [-> ->] Hw Hop.
  change 4%nat with (2 + 2)%nat. fetched Hw Hop.
  plain_tick GPR_PC clock_GPR_PC. rewrite land_4095_255. fold (address_field word).
  clear_tick CLRSC. arrived.
  split; [ split; [ reflexivity | unfold address_field; apply land_idem ] | ].
  split; [ reflexivity | ]. split; [ reflexivity | ].
  split; [ now rewrite !zeroFlag_F | reflexivity ].
Qed.




(** X16. HLT (opcode 0): the third tick after the boundary exits; the
    program counter has advanced past the halt word, and the accumulator,
    F and the memory are as they were. *)
Theorem HLT_instruction (c : Computer) (word : Z) :
  boundary c ->
  at_ (ram c) (pc c) = Some word ->
  opcode_field word = 0 ->
  exists c',
    run 3 c = Exited c' /\
    (forall n, run (3 + n) c = Exited c') /\
    pc c' = Z.land (pc c + 1) 0x00ff /\
    acc c' = acc c /\ flagF c' = flagF c /\ ram c' = ram c.
Proof.
  at_boundary_of c. intros [-> ->] Hw Hop.
  match goal with |- exists c', run 3 ?x = _ /\ _ =>
    assert (R3 : run 3 x = Exited (set_ctrl
      (mkComputer (Z.land word 0x0fff) GPR_OP 3 (Z.land (p + 1) 0x00ff) a
         (Z.land word 0x0fff) (zeroFlag (Z.land word 0x0fff) (zeroFlag g f))
         0 p (idleAdder (Z.land word 0x0fff) (zeroFlag g f)
                        (Z.land (a + Z.land word 0x0fff) 0x0fff)) r) HLT))
  end.
  { change 3%nat with (2 + 1)%nat. fetched Hw Hop.
    rewrite tick_halt by reflexivity. reflexivity. }
  eexists. split; [ exact R3 | ].
  split; [ intros n; rewrite run_add, R3; reflexivity | ].
  unfold set_ctrl. cbn [pc acc flg ram].
  split; [ reflexivity | ]. split; [ reflexivity | ].
  split; [ now rewrite !zeroFlag_F | reflexivity ].
Qed.

(** ** The instructions on example machines *)

Lemma CRA_instruction_witness :
  exists c', run 4 (poised 0x0ABC 1 [0x0100]) = Running c' /\ acc c' = 0 /\ pc c' = 1.
Proof.
  destruct (CRA_instruction (poised 0x0ABC 1 [0x0100]) 0x0100)
    as (c' & Hr & _ & Hp & Ha & _);
    [ split; reflexivity | reflexivity | reflexivity | ].
  exists c'. split; [ exact Hr | ]. split; [ exact Ha | rewrite Hp; reflexivity ].
Defined.

Lemma CTA_instruction_witness :
  exists c', run 4 (poised 0x0ABC 1 [0x0200]) = Running c' /\ acc c' = 0x0543.
Proof.
  destruct (CTA_instruction (poised 0x0ABC 1 [0x0200]) 0x0200)
    as (c' & Hr & _ & _ & _ & Ha & _);
    [ split; reflexivity | reflexivity | reflexivity | ].
  exists c'. split; [ exact Hr | ]. rewrite Ha; [ reflexivity | cbn; lia ].
Defined.

Lemma ITA_instruction_witness :
  exists c', run 4 (poised 0x0FFF 1 [0x0300]) = Running c' /\ acc c' = 0.
Proof.
  destruct (ITA_instruction (poised 0x0FFF 1 [0x0300]) 0x0300)
    as (c' & Hr & _ & _ & Ha & _);
    [ split; reflexivity | reflexivity | reflexivity | ].
  exists c'. split; [ exact Hr | rewrite Ha; reflexivity ].
Defined.

Lemma CRF_CTF_instructions_witness :
  exists c', run 4 (poised 0x0ABC 0 [0x0500]) = Running c' /\ flagF c' = true.
Proof.
  destruct (CRF_CTF_instructions (poised 0x0ABC 0 [0x0500]) 0x0500)
    as (c' & Hr & _ & _ & Hf & _);
    [ split; reflexivity | reflexivity | right; reflexivity | ].
  exists c'. split; [ exact Hr | rewrite Hf; reflexivity ].
Defined.

Lemma SFZ_instruction_witness :
  exists c', run 4 (poised 0x0ABC 0 [0x0600]) = Running c' /\ pc c' = 2.
Proof.
  destruct (SFZ_instruction (poised 0x0ABC 0 [0x0600]) 0x0600)
    as (c' & Hr & _ & Hp & _);
    [ split; reflexivity | reflexivity | reflexivity | ].
  exists c'. split; [ exact Hr | rewrite Hp; reflexivity ].
Defined.

Lemma ROR_ROL_instructions_witness :
  exists c', run 4 (poised 0x0ABC 1 [0x0800]) = Running c' /\
             acc c' = 0x0579 /\ flagF c' = true.
Proof.
  destruct (ROR_ROL_instructions (poised 0x0ABC 1 [0x0800]) 0x0800)
    as (c' & Hr & _ & _ & Ha & Hf & _);
    [ split; reflexivity | reflexivity | right; reflexivity | ].
  exists c'. split; [ exact Hr | ].
  split; [ rewrite Ha | rewrite Hf ]; reflexivity.
Defined.

(** The accumulator 3 and [ADD 08] with 5 in cell 8. *)
Lemma ADD_instruction_witness :
  exists c', run 6 (poised 3 0 [0x0908; 0; 0; 0; 0; 0; 0; 0; 5]) = Running c' /\
             acc c' = 8 /\ pc c' = 1.
Proof.
  destruct (ADD_instruction (poised 3 0 [0x0908; 0; 0; 0; 0; 0; 0; 0; 5]) 0x0908 5)
    as (c' & Hr & _ & Hp & Ha & _);
    [ split; reflexivity | reflexivity | reflexivity | reflexivity | ].
  exists c'. split; [ exact Hr | ].
  split; [ rewrite Ha | rewrite Hp ]; reflexivity.
Defined.



Lemma JMP_instruction_witness :
  exists c', run 4 (poised 0 0 [0x0C40]) = Running c' /\ pc c' = 0x40.
Proof.
  destruct (JMP_instruction (poised 0 0 [0x0C40]) 0x0C40)
    as (c' & Hr & _ & Hp & _);
    [ split; reflexivity | reflexivity | reflexivity | ].
  exists c'. split; [ exact Hr | rewrite Hp; reflexivity ].
Defined.




Lemma HLT_instruction_witness :
  exists c', run 50 (poised 0x0ABC 1 [0x0000]) = Exited c' /\ acc c' = 0x0ABC.
Proof.
  destruct (HLT_instruction (poised 0x0ABC 1 [0x0000]) 0x0000)
    as (c' & _ & Hn & _ & Ha & _);
    [ split; reflexivity | reflexivity | reflexivity | ].
  exists c'. split; [ exact (Hn 47%nat) | rewrite Ha; reflexivity ].
Defined.

(** ** Memory writes *)

(** Among the words the control unit publishes, only [GPR_M] itself
    enables the memory write. *)
Lemma emitted_store w : In w emitted -> asserts w ram_mInMask = true -> w = GPR_M.
Proof.
  intros Hin Ha.
  assert (H : forallb (fun w => implb (asserts w ram_mInMask) (w =? GPR_M)) emitted = true)
    by (vm_compute; reflexivity).
  rewrite forallb_forall in H. specialize (H w Hin).
  rewrite Ha in H. now apply Z.eqb_eq.
Qed.

Lemma phases_ram c c' :
  phases c = Running c' -> asserts (mCtrlLines c) ram_mInMask = false ->
  ram c' = ram c.
Proof.
  intros H Hn. destruct (phases_Running _ _ H) as (c2 & c3 & H2 & E3 & H4).
  assert (E2 : ram c2 = ram c /\ mCtrlLines c2 = mCtrlLines c).
  { destruct (Memory_HighLevel_Running _ _ H2) as [[_ ->]|[_ (w & _ & ->)]];
      now destruct c. }
  destruct E2 as [R2 C2].
  destruct (Adder_FallingEdge_frame (GprBus_FallingEdge (count c2)))
    as (_ & Ac & _ & _ & _ & _ & _ & Ar).
  destruct (GprBus_FallingEdge_frame (count c2))
    as (_ & Gc & _ & _ & _ & _ & _ & Gr).
  rewrite <- E3 in Ac, Ar.
  destruct (Memory_LowLevel_Running _ _ H4) as [[_ ->]|[Ht _]].
  - replace (ram (latch c3)) with (ram c3) by now destruct c3.
    rewrite Ar, Gr, <- R2. reflexivity.
  - replace (mCtrlLines (latch c3)) with (mCtrlLines c3) in Ht by now destruct c3.
    rewrite Ac, Gc in Ht. replace (mCtrlLines (count c2)) with (mCtrlLines c2) in Ht
      by reflexivity. rewrite C2, Hn in Ht. discriminate Ht.
Qed.

(** X17. A tick changes the memory only when its control word enables
    the memory write; that word is then [GPR_M], and the tick writes the
    general-purpose register into the cell the memory address register
    names: that cell reads back the register, every other cell and the
    size of the memory are as before, and neither register changes. *)
Theorem memory_changes_only_by_store (c c' : Computer) :
  tick c = Running c' ->
  (asserts (mCtrlLines c') ram_mInMask = false -> ram c' = ram c) /\
  (asserts (mCtrlLines c') ram_mInMask = true ->
     mCtrlLines c' = GPR_M /\
     ram c' = <[Z.to_nat (mar c) := gpr c]> (ram c) /\
     ram c' !! Z.to_nat (mar c) = Some (gpr c) /\
     (forall i, i <> Z.to_nat (mar c) -> ram c' !! i = ram c !! i) /\
     length (ram c') = length (ram c) /\
     mar c' = mar c /\ gpr c' = gpr c).
Proof.
  intros Ht. destruct (tick_Running _ _ Ht) as (w & s & Hs & _ & Hp).
  pose proof (phases_ctrl _ _ Hp) as Ec.
  replace (mCtrlLines (set_ctrl (set_store sReg s c) w)) with w in Ec by now destruct c.
  rewrite Ec. split.
  - intros Hn. rewrite (phases_ram _ _ Hp); now destruct c.
  - intros Ha.
    pose proof (emitted_store w (sequencer_emitted _ _ _ _ _ _ Hs) Ha) as ->.
    split; [ reflexivity | ].
    destruct c as [bus ctrl s0 p a g f o m al r]. cbn [mar gpr ram].
    assert (Hq : clock GPR_M (mkComputer bus ctrl s p a g f o m al r) = Running c')
      by exact Hp.
    destruct (at_ r m) as [v|] eqn:Ev.
    2:{ rewrite (clock_GPR_M_fault _ _ _ _ _ _ _ _ _ _ _ Ev) in Hq. discriminate Hq. }
    rewrite (clock_GPR_M _ _ _ _ _ _ _ _ _ _ _ v Ev) in Hq. injection Hq as <-.
    cbn [ram mar gpr].
    assert (Hlt : (Z.to_nat m < length r)%nat).
    { unfold at_ in Ev. destruct (0 <=? m); [ | discriminate ].
      apply lookup_lt_Some in Ev. exact Ev. }
    split; [ reflexivity | ].
    split; [ now apply list_lookup_insert_eq | ].
    split; [ intros i Hi; apply list_lookup_insert_ne; congruence | ].
    split; [ apply length_insert | split; reflexivity ].
Qed.

(** STA's third execute step in the built-in program, the 174th tick:
    the sum 36 goes to cell 7. *)
Lemma memory_changes_only_by_store_witness :
  exists c',
    tick (after 173 (power_on junk0)) = Running c' /\
    mCtrlLines c' = GPR_M /\
    ram c' !! 7%nat = Some 36 /\
    ram c' !! 9%nat = ram (after 173 (power_on junk0)) !! 9%nat.
Proof.
  eexists. split; [ vm_compute; reflexivity | ].
  match goal with |- mCtrlLines ?c' = _ /\ _ =>
    destruct (memory_changes_only_by_store (after 173 (power_on junk0)) c')
      as (_ & Hs); [ vm_compute; reflexivity | ];
    destruct Hs as (Hw & _ & Hr & Ho & _); [ reflexivity | ];
    split; [ exact Hw | ]; split; [ exact Hr | apply Ho; vm_compute; lia ]
  end.
Defined.

(** ** The data bus *)

Lemma Control_RisingEdge_emitted c c1 :
  Control_RisingEdge c = Running c1 -> In (mCtrlLines c1) emitted.
Proof.
  intros H. destruct (Control_RisingEdge_Running _ _ H) as (w & s & Hs & ->).
  replace (mCtrlLines (set_ctrl (set_store sReg s c) w)) with w by now destruct c.
  exact (sequencer_emitted _ _ _ _ _ _ Hs).
Qed.

(** The control unit does not read the data bus. *)
Lemma Control_RisingEdge_set_bus c v :
  Control_RisingEdge (set_bus c v) =
  match Control_RisingEdge c with
  | Running c1 => Running (set_bus c1 v)
  | Exited c1 => Exited (set_bus c1 v)
  | OutOfBounds => OutOfBounds
  end.
Proof.
  destruct c as [bus ctrl s p a g f o m al r].
  unfold Control_RisingEdge. cbn -[at_ mMicrocode skips asserts].
  destruct (at_ mMicrocode (microIndex o s)) as [w|]; [ | reflexivity ].
  cbn -[at_ mMicrocode skips asserts].
  destruct (asserts (skips _ _ w) CLRSC).
  - change (at_ mMicrocode 0) with (Some PC_MAR).
    cbn -[skips asserts]. closed_tests. reflexivity.
  - cbn -[skips asserts]. destruct (asserts (skips _ _ w) HLT); reflexivity.
Qed.

(** X18. Under every word the control unit publishes, at most one
    component drives the data bus, and whenever a component latches the
    bus exactly one drives it. *)
Theorem one_driver_per_tick (c c1 : Computer) :
  forEach RisingEdge c = Running c1 ->
  (drivers (mCtrlLines c1) <= 1)%nat /\
  (latches (mCtrlLines c1) = true -> drivers (mCtrlLines c1) = 1%nat).
Proof.
  rewrite forEach_RisingEdge. intros H.
  pose proof (Control_RisingEdge_emitted _ _ H) as Hin.
  assert (K : forallb (fun w => (drivers w <=? 1)%nat &&
                 implb (latches w) (drivers w =? 1)%nat) emitted = true)
    by (vm_compute; reflexivity).
  rewrite forallb_forall in K. specialize (K _ Hin).
  apply andb_true_iff in K. destruct K as [K1 K2].
  split; [ now apply Nat.leb_le | ].
  intros Hl. rewrite Hl in K2. now apply Nat.eqb_eq.
Qed.

(** The GPR_M tick of STA in the built-in program: the general-purpose
    register drives, the memory latches. *)
Lemma one_driver_per_tick_witness :
  exists c1,
    forEach RisingEdge (after 173 (power_on junk0)) = Running c1 /\
    latches (mCtrlLines c1) = true /\ drivers (mCtrlLines c1) = 1%nat.
Proof.
  eexists. split; [ vm_compute; reflexivity | ].
  split; [ reflexivity | ].
  match goal with |- drivers (mCtrlLines ?c1) = _ =>
    apply (one_driver_per_tick (after 173 (power_on junk0)) c1);
      [ vm_compute; reflexivity | reflexivity ]
  end.
Defined.

(** A published word under which something latches has a driver. *)
Lemma emitted_latch_driven w :
  In w emitted -> latches w = true ->
  asserts w (GPR_M .| GPR_MAR .| GPR_OP .| GPR_PC) || asserts w A_GPR
  || asserts w (PC_MAR .| PC_GPR) || asserts w ram_mOutMask = true.
Proof.
  intros Hin Hl.
  assert (K : forallb (fun w => implb (latches w)
                (asserts w (GPR_M .| GPR_MAR .| GPR_OP .| GPR_PC) || asserts w A_GPR
                 || asserts w (PC_MAR .| PC_GPR) || asserts w ram_mOutMask))
              emitted = true) by (vm_compute; reflexivity).
  rewrite forallb_forall in K. specialize (K _ Hin). now rewrite Hl in K.
Qed.

(** X19. In a tick in which any component latches the data bus, nothing
    depends on the word earlier ticks left on the bus: the tick started
    with any other bus word ends in the same outcome.  What is latched is
    what was driven in that tick. *)
Theorem stale_bus_never_latched (c c1 : Computer) (v : Z) :
  forEach RisingEdge c = Running c1 ->
  latches (mCtrlLines c1) = true ->
  tick (set_bus c v) = tick c.
Proof.
  rewrite forEach_RisingEdge. intros H Hl.
  pose proof (emitted_latch_driven _ (Control_RisingEdge_emitted _ _ H) Hl) as Hd.
  unfold tick.
  rewrite (forEach_RisingEdge c), (forEach_RisingEdge (set_bus c v)),
    Control_RisingEdge_set_bus, H.
  cbn [andThen]. unfold phases.
  rewrite (forEach_HighLevel c1), (forEach_HighLevel (set_bus c1 v)).
  assert (E : Memory_HighLevel
                (Adder_HighLevel (set_bus (set_bus c1 v) (drive (set_bus c1 v)))) =
              Memory_HighLevel (Adder_HighLevel (set_bus c1 (drive c1)))).
  { destruct c1 as [bus ctrl s p a g f o m al r].
    unfold drive. cbn [mCtrlLines set_bus gpr acc pc mBusLines] in *.
    destruct (asserts ctrl (GPR_M .| GPR_MAR .| GPR_OP .| GPR_PC)); [ reflexivity | ].
    destruct (asserts ctrl A_GPR); [ reflexivity | ].
    destruct (asserts ctrl (PC_MAR .| PC_GPR)); [ reflexivity | ].
    cbn [orb] in Hd. unfold Memory_HighLevel, Adder_HighLevel.
    cbn -[asserts at_]. rewrite Hd. destruct (at_ r m); reflexivity. }
  rewrite E. reflexivity.
Qed.

(** The fetch tick of the built-in program started with 0xFFFF on the
    bus. *)
Lemma stale_bus_never_latched_witness :
  tick (set_bus (after 1 (power_on junk0)) 0xFFFF) = tick (after 1 (power_on junk0)).
Proof.
  eapply (stale_bus_never_latched (after 1 (power_on junk0)) _ 0xFFFF).
  - vm_compute. reflexivity.
  - reflexivity.
Defined.

(** ** The adder's selection *)

(** X20. The adder acts only when exactly one of its seven control lines
    is asserted: under any other combination, two lines at once
    included, its compute phase leaves the accumulator and F as it found
    them. *)
Theorem adder_inert_unless_one_line (c : Computer) :
  (forall k, In k [ADD; COMA; COMF; CLRA; CLRF; ROL; ROR] ->
             Z.land (mCtrlLines c) alu_mInMask <> k) ->
  acc (Adder_FallingEdge c) = acc c /\
  flagF (Adder_FallingEdge c) = flagF c.
Proof.
  intros Hk.
  assert (Hc : mCtrlLines (Adder_flags c) = mCtrlLines c)
    by (rewrite Adder_flags_eq; now destruct c).
  split.
  - unfold Adder_FallingEdge.
    destruct (Adder_operate_cases (Adder_flags c)) as [_|E|E|E|E|E|E|E];
      try (rewrite Hc in E; exfalso; refine (Hk _ _ E); cbn; auto 10).
    rewrite Adder_flags_eq. now destruct c.
  - apply Adder_FallingEdge_carry; apply Hk; cbn; auto 10.
Qed.

(** [ADD] and [CLRA] together: neither the sum nor zero is written. *)
Lemma adder_inert_unless_one_line_witness :
  acc (Adder_FallingEdge
         (mkComputer 0 (ADD .| CLRA) 5 0 7 9 1 9 0 (mkAdder 0 0 16) (repeat 0 128%nat)))
  = 7.
Proof.
  destruct (adder_inert_unless_one_line
              (mkComputer 0 (ADD .| CLRA) 5 0 7 9 1 9 0 (mkAdder 0 0 16)
                          (repeat 0 128%nat))) as [Ha _].
  - intros k Hin. cbn in Hin.
    repeat (destruct Hin as [<- | Hin]; [ vm_compute; discriminate | ]).
    destruct Hin.
  - rewrite Ha. reflexivity.
Defined.

(** ** Thirteen rotations *)

Lemma clocks_ROL n : forall c,
  exists c',
    clocks ROL n c = Running c' /\
    acc c' = fst (rotl n (acc c) (flagF c)) /\
    flagF c' = snd (rotl n (acc c) (flagF c)).
Proof.
  induction n as [|n IH]; intros c; cbn [clocks rotl].
  - exists c. repeat split.
  - destruct (clock_ROL c) as (c1 & H1 & A1 & F1). rewrite H1. cbn [andThen].
    destruct (IH c1) as (c' & H' & A' & F').
    exists c'. split; [ exact H' | ]. rewrite A', F', A1, F1. split; reflexivity.
Qed.

(** X21. The accumulator and F form a ring of 13 bits: thirteen
    rotate-left ticks bring every 12-bit accumulator value and either
    carry back to where they started. *)
Theorem thirteen_rotations (c : Computer) :
  0 <= acc c < 4096 ->
  exists c',
    clocks ROL 13 c = Running c' /\ acc c' = acc c /\ flagF c' = flagF c.
Proof.
  intros Ha.
  assert (K : forallb (fun a =>
                 (fst (rotl 13 a false) =? a) && negb (snd (rotl 13 a false)) &&
                 (fst (rotl 13 a true) =? a) && snd (rotl 13 a true))
               (Zupto 4096) = true) by (vm_compute; reflexivity).
  pose proof (Zupto_spec _ _ K _ Ha) as K'. cbv beta in K'.
  rewrite !andb_true_iff in K'. destruct K' as [[[K1 K2] K3] K4].
  apply Z.eqb_eq in K1, K3. apply negb_true_iff in K2.
  destruct (clocks_ROL 13 c) as (c' & H & A & F).
  exists c'. split; [ exact H | ]. rewrite A, F.
  destruct (flagF c); split; assumption.
Qed.

Lemma thirteen_rotations_witness :
  exists c', clocks ROL 13 rotating = Running c' /\ acc c' = 0x0ABC /\ flagF c' = true.
Proof.
  destruct (thirteen_rotations rotating) as (c' & H & A & F); [ cbn; lia | ].
  exists c'. split; [ exact H | ]. split; [ rewrite A | rewrite F ]; reflexivity.
Defined.
